(** * Cybersecurity LMS API: handlers with graceful storage fallback

    A shallow embedding of [main.py] (the FastAPI handlers, the availability
    prober, the seeding routine and the fallback dataset) over an explicit
    model of the document store and of the failures it can raise.

    - Python values stored in documents are the inductive [value];
      a Python [dict] is an insertion-ordered association list.
    - The module-level handle [db], the storage behind it, the failures of
      the backend and the process environment form the record [World].
    - Code that calls the store lives in the state-and-exception monad [M];
      [try_except] is Python's [try: ... except Exception: ...]. *)

From Stdlib Require Import ZArith NArith String Ascii List Bool Sorted Lia.
From stdpp Require Import gmap strings list fin_maps.

Local Open Scope string_scope.
Local Open Scope list_scope.
Local Open Scope nat_scope.

(* ===================================================================== *)
(** ** Python values                                                      *)
(* ===================================================================== *)

(** The values this program reads from and writes to documents: [None],
    booleans, integers, strings, BSON object ids and lists of strings. *)
Inductive value : Type :=
| VNone
| VBool (b : bool)
| VInt (z : Z)
| VStr (s : string)
| VOid (o : N)
| VList (l : list string).

#[global] Instance value_eq_dec : EqDecision value.
Proof. solve_decision. Defined.

(** Numeric view: [bool] is a subclass of [int] in Python. *)
Definition py_num (v : value) : option Z :=
  match v with
  | VBool b => Some (Z.b2z b)
  | VInt z => Some z
  | _ => None
  end.

(** Python's [a == b]. *)
Definition py_eq (a b : value) : bool :=
  match a, b with
  | VNone, VNone => true
  | (VBool _ | VInt _), (VBool _ | VInt _) =>
      match py_num a, py_num b with
      | Some x, Some y => Z.eqb x y
      | _, _ => false
      end
  | VStr x, VStr y => String.eqb x y
  | VOid x, VOid y => N.eqb x y
  | VList x, VList y => bool_decide (x = y)
  | _, _ => false
  end.

(** Lexicographic [<] on lists of strings, as Python compares lists. *)
Fixpoint list_ltb (xs ys : list string) : bool :=
  match xs, ys with
  | _, [] => false
  | [], _ :: _ => true
  | x :: xs', y :: ys' =>
      if String.eqb x y then list_ltb xs' ys' else String.ltb x y
  end.

(** Python's [a < b]; [None] is the [TypeError] raised for operands that
    do not support the comparison. *)
Definition py_lt (a b : value) : option bool :=
  match a, b with
  | (VBool _ | VInt _), (VBool _ | VInt _) =>
      match py_num a, py_num b with
      | Some x, Some y => Some (Z.ltb x y)
      | _, _ => None
      end
  | VStr x, VStr y => Some (String.ltb x y)
  | VOid x, VOid y => Some (N.ltb x y)
  | VList x, VList y => Some (list_ltb x y)
  | _, _ => None
  end.

(** [isinstance(v, list)]. *)
Definition isinstance_list (v : value) : bool :=
  match v with VList _ => true | _ => false end.

(* ===================================================================== *)
(** ** Dictionaries and documents                                         *)
(* ===================================================================== *)

Definition dict : Type := list (string * value).

Fixpoint dict_get (k : string) (d : dict) : option value :=
  match d with
  | [] => None
  | (k', v) :: d' => if String.eqb k k' then Some v else dict_get k d'
  end.

(** [d.get(k, dflt)]; [d.get(k)] is [dict_get_default k VNone d]. *)
Definition dict_get_default (k : string) (dflt : value) (d : dict) : value :=
  default dflt (dict_get k d).

(** [d[k] = v]: overwrite in place, or append a new key. *)
Fixpoint dict_set (k : string) (v : value) (d : dict) : dict :=
  match d with
  | [] => [(k, v)]
  | (k', v') :: d' =>
      if String.eqb k k' then (k, v) :: d' else (k', v') :: dict_set k v d'
  end.

(** Truthiness of a dict and of a list: non-empty. *)
Definition truthy {A} (l : list A) : bool :=
  match l with [] => false | _ :: _ => true end.

(** A stored document: the driver-generated [_id] and the other fields. *)
Record document : Type := Document {
  doc_id : N;
  doc_fields : dict
}.

#[global] Instance document_eq_dec : EqDecision document.
Proof. solve_decision. Defined.

(** The dict the driver hands back for a stored document. *)
Definition doc_dict (d : document) : dict :=
  ("_id", VOid (doc_id d)) :: doc_fields d.

(** *** Object ids *)

Definition hex_chars : list ascii :=
  list_ascii_of_string "0123456789abcdef".

Definition hex_digit (n : N) : ascii :=
  nth (N.to_nat n) hex_chars "0"%char.

Fixpoint hex_of (k : nat) (n : N) (acc : string) : string :=
  match k with
  | O => acc
  | S k' => hex_of k' (n / 16)%N (String (hex_digit (n mod 16)%N) acc)
  end.

(** [str(oid)]: 24 lower-case hexadecimal digits. *)
Definition oid_str (o : N) : string := hex_of 24 o "".

Definition hex_val (c : ascii) : option N :=
  let n := N_of_ascii c in
  if ((48 <=? n) && (n <=? 57))%N then Some (n - 48)%N
  else if ((97 <=? n) && (n <=? 102))%N then Some (n - 87)%N
  else if ((65 <=? n) && (n <=? 70))%N then Some (n - 55)%N
  else None.

Fixpoint hex_parse (s : string) (acc : N) : option N :=
  match s with
  | EmptyString => Some acc
  | String c s' =>
      match hex_val c with
      | Some d => hex_parse s' (16 * acc + d)%N
      | None => None
      end
  end.

(** [bson.ObjectId(s)] for a string: 24 hexadecimal digits, otherwise
    [InvalidId] ([None] here). *)
Definition ObjectId (s : string) : option N :=
  if Nat.eqb (String.length s) 24 then hex_parse s 0%N else None.

(** [to_str_id] on a document returned by the driver: the [_id] entry is
    popped and its string form stored under ["id"]. The [None] branch of
    the source is never reached: the function is only mapped over query
    results. *)
Definition to_str_id (doc : document) : dict :=
  dict_set "id" (VStr (oid_str (doc_id doc))) (doc_fields doc).

(* ===================================================================== *)
(** ** The store, the world and the monad                                 *)
(* ===================================================================== *)

(** A database: its name, its collections by name and the next id the
    driver will generate. *)
Record Store : Type := mkStore {
  store_name : string;
  collections : gmap string (list document);
  next_oid : N
}.

Definition coll (s : Store) (c : string) : list document :=
  default [] (collections s !! c).

Definition exn : Type := string.

(** The world a handler runs in: the module-level handle [db] ([None]
    when the database is not configured), the failures of the backend
    (one entry per round trip, [Some msg] when that round trip raises; an
    exhausted schedule means no further failure) and the environment
    variables. *)
Record World : Type := mkWorld {
  db : option Store;
  faults : list (option exn);
  environ : gmap string string
}.

Definition set_db (s : Store) (w : World) : World :=
  mkWorld (Some s) (faults w) (environ w).

Definition set_faults (fs : list (option exn)) (w : World) : World :=
  mkWorld (db w) fs (environ w).

Inductive result (A : Type) : Type :=
| Ok (a : A)
| Raise (e : exn).
Arguments Ok {A} a.
Arguments Raise {A} e.

Definition Eff (St A : Type) : Type := St -> result A * St.
Definition M (A : Type) : Type := Eff World A.

Definition ret {St A} (a : A) : Eff St A := fun w => (Ok a, w).

Definition raise {St A} (e : exn) : Eff St A := fun w => (Raise e, w).

Definition bind {St A B} (m : Eff St A) (k : A -> Eff St B) : Eff St B :=
  fun w =>
    match m w with
    | (Ok a, w') => k a w'
    | (Raise e, w') => (Raise e, w')
    end.

(** [try: body except Exception as e: handler]. The effects of [body] up
    to the exception are kept. *)
Definition try_except {St A} (body : Eff St A) (handler : exn -> Eff St A)
  : Eff St A :=
  fun w =>
    match body w with
    | (Ok a, w') => (Ok a, w')
    | (Raise e, w') => handler e w'
    end.

Declare Scope eff_scope.
Delimit Scope eff_scope with eff.
Notation "x <- m ;; k" := (bind m (fun x => k))
  (at level 100, m at next level, right associativity) : eff_scope.
Notation "m ;; k" := (bind m (fun _ => k))
  (at level 100, right associativity) : eff_scope.
Local Open Scope eff_scope.

(** *** The driver *)

(** One round trip to the backend: raises when the schedule says so. *)
Definition round_trip : M unit :=
  fun w =>
    let w' := set_faults (tail (faults w)) w in
    match head (faults w) with
    | Some (Some e) => (Raise e, w')
    | _ => (Ok tt, w')
    end.

(** Attribute access or subscription on the handle [db]; on [None] Python
    raises before anything reaches the backend. *)
Definition deref_db (e : exn) : M Store :=
  fun w =>
    match db w with
    | Some s => (Ok s, w)
    | None => (Raise e, w)
    end.

Definition not_subscriptable : exn :=
  "'NoneType' object is not subscriptable".

Definition no_attribute : exn :=
  "'NoneType' object has no attribute 'list_collection_names'".

(** [db.list_collection_names()]. *)
Definition list_collection_names : M value :=
  s <- deref_db no_attribute ;;
  round_trip ;;
  ret (VList (map fst (map_to_list (collections s)))).

(** A filter is an exact-match field mapping. *)
Definition matches (flt : dict) (d : document) : bool :=
  forallb
    (fun kv =>
       match dict_get (fst kv) (doc_dict d) with
       | Some v => bool_decide (v = snd kv)
       | None => false
       end)
    flt.

(** [db[c].count_documents({})]. *)
Definition count_documents (c : string) : M nat :=
  s <- deref_db not_subscriptable ;;
  round_trip ;;
  ret (length (coll s c)).

(** [db[c].find_one(filter)]. *)
Definition find_one (c : string) (flt : dict) : M (option document) :=
  s <- deref_db not_subscriptable ;;
  round_trip ;;
  ret (head (filter (fun d => matches flt d = true) (coll s c))).

Definition insert_doc (c : string) (fields : dict) (s : Store) : Store :=
  mkStore (store_name s)
          (<[c := (coll s c ++ [Document (next_oid s) fields])%list]>
             (collections s))
          (next_oid s + 1)%N.

(** [db[c].insert_one(fields).inserted_id]. *)
Definition insert_one (c : string) (fields : dict) : M N :=
  s <- deref_db not_subscriptable ;;
  round_trip ;;
  (fun w => (Ok (next_oid s), set_db (insert_doc c fields s) w)).

Definition limit_to (limit : option nat) (l : list document) : list document :=
  match limit with
  | Some n => if Nat.eqb n 0 then l else take n l
  | None => l
  end.

(** [db[c].find(flt)], with [.limit(n)] when a limit is given, as a list. *)
Definition find (c : string) (flt : dict) (limit : option nat)
  : M (list document) :=
  s <- deref_db not_subscriptable ;;
  round_trip ;;
  ret (limit_to limit (filter (fun d => matches flt d = true) (coll s c))).

(* ===================================================================== *)
(** ** The storage accessor ([database.py])                               *)
(* ===================================================================== *)

Definition db_not_available : exn := "Database not available".

(** Modelled from the spec: [create_document] of the module [database],
    which is not among the sources. "[create(collection, fields) -> id]
    inserts a document, returns its generated identifier as an opaque
    string"; "any backend failure propagates as an exception to the
    caller", the store being unconfigured included. *)
Definition create_document (c : string) (fields : dict) : M string :=
  deref_db db_not_available ;;
  o <- insert_one c fields ;;
  ret (oid_str o).

(** Modelled from the spec: [get_documents] of the module [database],
    which is not among the sources. "[query(collection, filter, limit?)
    -> sequence of documents] returns matching documents, filter is an
    exact-match field mapping (no operators)"; failures propagate. *)
Definition get_documents (c : string) (flt : dict) (limit : option nat)
  : M (list document) :=
  deref_db db_not_available ;;
  find c flt limit.

(* ===================================================================== *)
(** ** [main.py]: utilities and the fallback dataset                      *)
(* ===================================================================== *)

(** [db is not None and isinstance(db.list_collection_names(), list) or
    True], which Python reads as [(A and B) or True]. *)
Definition db_available : M bool :=
  try_except
    (fun w =>
       match db w with
       | None => ret (false || true) w
       | Some _ =>
           (names <- list_collection_names ;;
            ret (true && isinstance_list names || true)) w
       end)
    (fun _ => ret false).

Definition SAMPLE_COURSE : dict :=
  [ ("id", VStr "sample-course-1");
    ("title", VStr "Intro to Cybersecurity");
    ("description",
      VStr "Learn fundamentals: CIA triad, threat landscape, basic defenses.");
    ("level", VStr "Beginner");
    ("category", VStr "Foundations");
    ("thumbnail", VNone) ].

Definition SAMPLE_LESSONS : list dict :=
  [ [ ("id", VStr "sample-lesson-1");
      ("course_id", dict_get_default "id" VNone SAMPLE_COURSE);
      ("title", VStr "CIA Triad");
      ("content",
        VStr "Confidentiality, Integrity, Availability — the pillars of security.");
      ("order", VInt 1) ];
    [ ("id", VStr "sample-lesson-2");
      ("course_id", dict_get_default "id" VNone SAMPLE_COURSE);
      ("title", VStr "Threats & Vulnerabilities");
      ("content",
        VStr "Malware, phishing, misconfigurations, weak passwords.");
      ("order", VInt 2) ] ].

Definition SAMPLE_QUIZ : dict :=
  [ ("id", VStr "sample-quiz-1");
    ("lesson_id", VStr "sample-lesson-1");
    ("question", VStr "What does CIA stand for in cybersecurity?");
    ("options",
      VList [ "Confidentiality, Integrity, Availability";
              "Control, Inspection, Analysis";
              "Confidentiality, Identity, Access";
              "Compliance, Integration, Auditing" ]);
    ("correct_option", VInt 0) ].

(** [d[k]] on the constants above (the key is always present). *)
Definition item (k : string) (d : dict) : value := dict_get_default k VNone d.

(* ===================================================================== *)
(** ** Seeding                                                            *)
(* ===================================================================== *)

Definition ensure_seed_data : M unit :=
  avail <- db_available ;;
  if negb avail then ret tt
  else
    try_except
      (n <- count_documents "course" ;;
       if Nat.eqb n 0 then
         course_id <- create_document "course"
           [ ("title", item "title" SAMPLE_COURSE);
             ("description", item "description" SAMPLE_COURSE);
             ("level", item "level" SAMPLE_COURSE);
             ("category", item "category" SAMPLE_COURSE);
             ("thumbnail", item "thumbnail" SAMPLE_COURSE) ] ;;
         l1_id <- create_document "lesson"
           [ ("course_id", VStr course_id);
             ("title", item "title" (nth 0 SAMPLE_LESSONS []));
             ("content", item "content" (nth 0 SAMPLE_LESSONS []));
             ("order", VInt 1) ] ;;
         create_document "lesson"
           [ ("course_id", VStr course_id);
             ("title", item "title" (nth 1 SAMPLE_LESSONS []));
             ("content", item "content" (nth 1 SAMPLE_LESSONS []));
             ("order", VInt 2) ] ;;
         create_document "quiz"
           [ ("lesson_id", VStr l1_id);
             ("question", item "question" SAMPLE_QUIZ);
             ("options", item "options" SAMPLE_QUIZ);
             ("correct_option", item "correct_option" SAMPLE_QUIZ) ] ;;
         ret tt
       else ret tt)
      (fun _ => ret tt).

Definition startup_event : M unit := ensure_seed_data.

(* ===================================================================== *)
(** ** [list.sort(key=...)]                                               *)
(* ===================================================================== *)

(** Python's sort is stable and only ever asks [a < b] of two keys; a
    comparison that raises aborts the sort. On the keys of [value] ([<] is
    a strict total order inside each comparable class and raises across
    classes and on [None]) every such sort returns the same list, or
    raises, as this stable insertion sort: a list of one element is never
    compared, and two keys of different classes cannot be ordered without
    a raising comparison. *)
Section Sort.
Context {A : Type} (key : A -> value).

Fixpoint insert_by (x : A) (l : list A) : option (list A) :=
  match l with
  | [] => Some [x]
  | y :: l' =>
      match py_lt (key y) (key x) with
      | None => None
      | Some true => cons y <$> insert_by x l'
      | Some false => Some (x :: y :: l')
      end
  end.

Fixpoint py_sort (l : list A) : option (list A) :=
  match l with
  | [] => Some []
  | x :: l' => py_sort l' ≫= insert_by x
  end.
End Sort.

Definition type_error : exn := "'<' not supported between instances".
Definition invalid_id : exn := "is not a valid ObjectId".

Definition lift_option {St A} (e : exn) (o : option A) : Eff St A :=
  match o with
  | Some a => ret a
  | None => raise e
  end.

(* ===================================================================== *)
(** ** Requests and responses                                             *)
(* ===================================================================== *)

Record EnrollRequest : Type := mkEnrollRequest {
  name : string;
  email : string;
  course_id : string
}.

(** [req.dict()]. *)
Definition enroll_dict (req : EnrollRequest) : dict :=
  [ ("name", VStr (name req));
    ("email", VStr (email req));
    ("course_id", VStr (course_id req)) ].

Record SubmitQuizRequest : Type := mkSubmitQuizRequest {
  sq_email : string;
  quiz_id : string;
  selected_option : Z
}.

(** The dict built up by [/test]. *)
Record Diagnostics : Type := mkDiagnostics {
  d_backend : string;
  d_database : string;
  d_database_url : option string;
  d_database_name : option string;
  d_connection_status : string;
  d_collections : value
}.

(** The JSON bodies the handlers return. *)
Inductive Response : Type :=
| RMessage (message : string)
| RItems (items : list dict)
| RQuiz (quiz : option dict)
| RStatus (status : string)
| RScore (correct : bool) (score : Z)
| RProgress (p_email p_course_id : string) (quizzes_attempted p_correct : nat)
| RDiag (d : Diagnostics).

(* ===================================================================== *)
(** ** Public endpoints with graceful fallback                            *)
(* ===================================================================== *)

(** In the handlers below the [try] block yields [Some r] when it executes
    [return r], and [None] when control falls out of it (also through
    [except Exception: pass]). *)

Definition root : M Response :=
  ret (RMessage "Cybersecurity LMS API running").

Definition list_courses : M Response :=
  avail <- db_available ;;
  returned <-
    (if avail then
       try_except
         (docs <- get_documents "course" [] None ;;
          let courses := map to_str_id docs in
          ret (Some (RItems courses)))
         (fun _ => ret None)
     else ret None) ;;
  match returned with
  | Some r => ret r
  | None => ret (RItems [SAMPLE_COURSE])
  end.

(** [lambda x: x.get("order", 0)]. *)
Definition order_key (x : dict) : value := dict_get_default "order" (VInt 0) x.

Definition list_lessons (course_id : string) : M Response :=
  avail <- db_available ;;
  returned <-
    (if avail then
       try_except
         (docs <- get_documents "lesson" [("course_id", VStr course_id)] None ;;
          lessons <- lift_option type_error
                       (py_sort order_key (map to_str_id docs)) ;;
          if truthy lessons then ret (Some (RItems lessons)) else ret None)
         (fun _ => ret None)
     else ret None) ;;
  match returned with
  | Some r => ret r
  | None =>
      if py_eq (VStr course_id) (item "id" SAMPLE_COURSE)
      then ret (RItems SAMPLE_LESSONS)
      else ret (RItems [])
  end.

Definition get_quiz (lesson_id : string) : M Response :=
  avail <- db_available ;;
  returned <-
    (if avail then
       try_except
         (docs <- get_documents "quiz" [("lesson_id", VStr lesson_id)]
                    (Some 1%nat) ;;
          let quizzes := map to_str_id docs in
          match quizzes with
          | q0 :: _ => ret (Some (RQuiz (Some q0)))
          | [] => ret None
          end)
         (fun _ => ret None)
     else ret None) ;;
  match returned with
  | Some r => ret r
  | None =>
      if py_eq (VStr lesson_id) (item "lesson_id" SAMPLE_QUIZ)
      then ret (RQuiz (Some SAMPLE_QUIZ))
      else ret (RQuiz None)
  end.

Definition enroll (req : EnrollRequest) : M Response :=
  avail <- db_available ;;
  returned <-
    (if avail then
       try_except
         (existing <- find_one "enrollment"
                        [ ("email", VStr (email req));
                          ("course_id", VStr (course_id req)) ] ;;
          if match existing with
             | Some d => truthy (doc_dict d)
             | None => false
             end
          then ret (Some (RStatus "already_enrolled"))
          else
            create_document "enrollment" (enroll_dict req) ;;
            ret (Some (RStatus "enrolled")))
         (fun _ => ret None)
     else ret None) ;;
  match returned with
  | Some r => ret r
  | None => ret (RStatus "enrolled")
  end.

Definition is_none (v : value) : bool :=
  match v with VNone => true | _ => false end.

Definition submit_quiz (req : SubmitQuizRequest) : M Response :=
  let correct_option := VNone in
  avail <- db_available ;;
  correct_option <-
    (if avail then
       try_except
         (deref_db not_subscriptable ;;
          o <- lift_option invalid_id (ObjectId (quiz_id req)) ;;
          q <- find_one "quiz" [("_id", VOid o)] ;;
          match q with
          | Some q =>
              if truthy (doc_dict q)
              then ret (dict_get_default "correct_option" VNone (doc_dict q))
              else ret correct_option
          | None => ret correct_option
          end)
         (fun _ => ret correct_option)
     else ret correct_option) ;;
  let correct_option :=
    if is_none correct_option then
      if py_eq (VStr (quiz_id req)) (item "id" SAMPLE_QUIZ)
      then item "correct_option" SAMPLE_QUIZ
      else VInt (-1)
    else correct_option in
  let score := if py_eq (VInt (selected_option req)) correct_option
               then 1%Z else 0%Z in
  avail <- db_available ;;
  (if avail then
     try_except
       (create_document "submission"
          [ ("email", VStr (sq_email req));
            ("quiz_id", VStr (quiz_id req));
            ("selected_option", VInt (selected_option req));
            ("score", VInt score) ] ;;
        ret tt)
       (fun _ => ret tt)
   else ret tt) ;;
  ret (RScore (negb (Z.eqb score 0)) score).

Definition get_progress (email course_id : string) : M Response :=
  avail <- db_available ;;
  returned <-
    (if avail then
       try_except
         (subs <- get_documents "submission" [("email", VStr email)] None ;;
          let total := length subs in
          let correct :=
            length
              (filter
                 (fun s =>
                    py_eq (dict_get_default "score" (VInt 0) (doc_dict s))
                          (VInt 1) = true)
                 subs) in
          ret (Some (RProgress email course_id total correct)))
         (fun _ => ret None)
     else ret None) ;;
  match returned with
  | Some r => ret r
  | None => ret (RProgress email course_id 0 0)
  end.

(* ===================================================================== *)
(** ** Diagnostics                                                        *)
(* ===================================================================== *)

(** [os.getenv(k)] and its truthiness. *)
Definition os_getenv (k : string) : M (option string) :=
  fun w => (Ok (environ w !! k), w).

Definition str_truthy (o : option string) : bool :=
  match o with
  | Some s => negb (String.eqb s "")
  | None => false
  end.

(** A handler with a local variable of type [L] next to the world. *)
Definition lift_world {L A} (m : M A) : Eff (L * World) A :=
  fun lw =>
    match m (snd lw) with
    | (r, w') => (r, (fst lw, w'))
    end.

Definition assign {L} (f : L -> L) : Eff (L * World) unit :=
  fun lw => (Ok tt, (f (fst lw), snd lw)).

Definition set_database (v : string) (r : Diagnostics) : Diagnostics :=
  mkDiagnostics (d_backend r) v (d_database_url r) (d_database_name r)
                (d_connection_status r) (d_collections r).

Definition set_database_url (v : option string) (r : Diagnostics)
  : Diagnostics :=
  mkDiagnostics (d_backend r) (d_database r) v (d_database_name r)
                (d_connection_status r) (d_collections r).

Definition set_database_name (v : option string) (r : Diagnostics)
  : Diagnostics :=
  mkDiagnostics (d_backend r) (d_database r) (d_database_url r) v
                (d_connection_status r) (d_collections r).

Definition set_connection_status (v : string) (r : Diagnostics)
  : Diagnostics :=
  mkDiagnostics (d_backend r) (d_database r) (d_database_url r)
                (d_database_name r) v (d_collections r).

Definition set_collections (v : value) (r : Diagnostics) : Diagnostics :=
  mkDiagnostics (d_backend r) (d_database r) (d_database_url r)
                (d_database_name r) (d_connection_status r) v.

(** [v[:10]]. *)
Definition slice10 (v : value) : value :=
  match v with
  | VList l => VList (take 10 l)
  | _ => v
  end.

Definition set_or_not (o : option string) : string :=
  if str_truthy o then "✅ Set" else "❌ Not Set".

(** The text of [str(e)[:80]]. *)
Definition str80 (e : exn) : string := substring 0 80 e.

Definition test_database_body : Eff (Diagnostics * World) unit :=
  try_except
    (avail <- lift_world db_available ;;
     if avail then
       assign (set_database "✅ Available") ;;
       url <- lift_world (os_getenv "DATABASE_URL") ;;
       assign (set_database_url (Some (set_or_not url))) ;;
       h <- lift_world (fun w => (Ok (db w), w)) ;;
       assign (set_database_name
                 (Some match h with
                       | Some s => store_name s
                       | None => "Unknown"
                       end)) ;;
       assign (set_connection_status "Connected") ;;
       try_except
         (collections <- lift_world list_collection_names ;;
          assign (set_collections (slice10 collections)) ;;
          assign (set_database "✅ Connected & Working"))
         (fun e =>
            assign (set_database
                      ("⚠️  Connected but Error: " ++ str80 e)%string))
     else assign (set_database "⚠️  Unavailable"))
    (fun e => assign (set_database ("❌ Error: " ++ str80 e)%string)) ;;
  url <- lift_world (os_getenv "DATABASE_URL") ;;
  assign (set_database_url (Some (set_or_not url))) ;;
  nm <- lift_world (os_getenv "DATABASE_NAME") ;;
  assign (set_database_name (Some (set_or_not nm))).

Definition test_database : M Response :=
  fun w =>
    let response :=
      mkDiagnostics "✅ Running" "❌ Not Available" None None
                    "Not Connected" (VList []) in
    match test_database_body (response, w) with
    | (Ok _, (r, w')) => (Ok (RDiag r), w')
    | (Raise e, (_, w')) => (Raise e, w')
    end.

(* ===================================================================== *)
(** ** The application                                                    *)
(* ===================================================================== *)

Inductive Request : Type :=
| GetRoot
| GetCourses
| GetLessons (course_id : string)
| GetQuiz (lesson_id : string)
| PostEnroll (req : EnrollRequest)
| PostSubmitQuiz (req : SubmitQuizRequest)
| GetProgress (email course_id : string)
| GetTest.

Definition dispatch (rq : Request) : M Response :=
  match rq with
  | GetRoot => root
  | GetCourses => list_courses
  | GetLessons c => list_lessons c
  | GetQuiz l => get_quiz l
  | PostEnroll r => enroll r
  | PostSubmitQuiz r => submit_quiz r
  | GetProgress e c => get_progress e c
  | GetTest => test_database
  end.

(** The framework answers 200 with the handler's body, and 500 when the
    handler lets an exception escape. *)
Definition http_status (r : result Response) : Z :=
  match r with
  | Ok _ => 200
  | Raise _ => 500
  end.



(* ===================================================================== *)
(** ** [schemas.py]: the models of the collections                        *)
(* ===================================================================== *)

(** The annotations the models use; an [int] carries the bounds of its
    [Field(ge=..., le=...)]. *)
Inductive annotation : Type :=
| Str
| Int (ge le : option Z)
| OptionalStr
| ListStr.

(** A field of a model: its name, its annotation and its default
    ([None] for a required field, [Field(...)]). *)
Record FieldInfo : Type := mkField {
  field_name : string;
  field_type : annotation;
  field_default : option value
}.

Definition Course : list FieldInfo :=
  [ mkField "title" Str None;
    mkField "description" Str None;
    mkField "level" Str None;
    mkField "category" Str None;
    mkField "thumbnail" OptionalStr (Some VNone) ].

Definition Lesson : list FieldInfo :=
  [ mkField "course_id" Str None;
    mkField "title" Str None;
    mkField "content" Str None;
    mkField "order" (Int None None) None ].

Definition Enrollment : list FieldInfo :=
  [ mkField "course_id" Str None;
    mkField "email" Str None;
    mkField "name" Str None ].

Definition Progress : list FieldInfo :=
  [ mkField "email" Str None;
    mkField "course_id" Str None;
    mkField "lesson_id" Str None;
    mkField "status" Str (Some (VStr "in_progress")) ].

Definition Quiz : list FieldInfo :=
  [ mkField "lesson_id" Str None;
    mkField "question" Str None;
    mkField "options" ListStr None;
    mkField "correct_option" (Int (Some 0%Z) None) None ].

Definition Submission : list FieldInfo :=
  [ mkField "email" Str None;
    mkField "quiz_id" Str None;
    mkField "selected_option" (Int (Some 0%Z) None) None;
    mkField "score" (Int (Some 0%Z) (Some 1%Z)) None ].

(** "The collection name is the lowercase of the class name." *)
Definition models : list (string * list FieldInfo) :=
  [ ("course", Course);
    ("lesson", Lesson);
    ("enrollment", Enrollment);
    ("progress", Progress);
    ("quiz", Quiz);
    ("submission", Submission) ].

Definition model_of (c : string) : option (list FieldInfo) :=
  snd <$> List.find (λ m, String.eqb (fst m) c) models.

(** The value has the annotated type and respects its bounds. *)
Definition has_type (t : annotation) (v : value) : bool :=
  match t, v with
  | Str, VStr _ => true
  | Int ge le, VInt z =>
      match ge with Some a => Z.leb a z | None => true end &&
      match le with Some b => Z.leb z b | None => true end
  | OptionalStr, (VStr _ | VNone) => true
  | ListStr, VList _ => true
  | _, _ => false
  end.

(** The dict validates against the model as it is, without conversion:
    every field is present with its type and bounds, or absent with a
    default; other keys are ignored. *)
Definition conforms (model : list FieldInfo) (d : dict) : bool :=
  forallb
    (λ f, match dict_get (field_name f) d with
          | Some v => has_type (field_type f) v
          | None => match field_default f with
                    | Some _ => true
                    | None => false
                    end
          end)
    model.
(* ===================================================================== *)
(** * Specification vocabulary                                            *)
(* ===================================================================== *)

(** The world after one round trip. *)
Definition tick (w : World) : World := set_faults (tail (faults w)) w.

(** The world after [k] round trips. *)
Definition after (k : nat) (w : World) : World :=
  set_faults (drop k (faults w)) w.

(** The [k]-th round trip from now raises. *)
Definition raises_at (k : nat) (w : World) : bool :=
  match faults w !! k with
  | Some (Some _) => true
  | _ => false
  end.

(** The introspection call of the prober is made and raises. *)
Definition probe_raises (w : World) : Prop :=
  ∃ s e, db w = Some s ∧ head (faults w) = Some (Some e).

(** Live mode for the next [n] round trips: the database is configured
    and none of them raises. *)
Definition live (n : nat) (w : World) : bool :=
  match db w with
  | Some _ => forallb (λ f, match f with Some _ => false | None => true end)
                (take n (faults w))
  | None => false
  end.

(** *** Submitting a quiz answer *)

(** The two guarded blocks of [submit_quiz], by name. *)
Definition lookup_phase (req : SubmitQuizRequest) : M value :=
  (avail <- db_available ;;
   if avail then
     try_except
       (deref_db not_subscriptable ;;
        o <- lift_option invalid_id (ObjectId (quiz_id req)) ;;
        q <- find_one "quiz" [("_id", VOid o)] ;;
        match q with
        | Some q =>
            if truthy (doc_dict q)
            then ret (dict_get_default "correct_option" VNone (doc_dict q))
            else ret VNone
        | None => ret VNone
        end)
       (fun _ => ret VNone)
   else ret VNone)%eff.

Definition submission_fields (req : SubmitQuizRequest) (score : Z) : dict :=
  [ ("email", VStr (sq_email req));
    ("quiz_id", VStr (quiz_id req));
    ("selected_option", VInt (selected_option req));
    ("score", VInt score) ].

Definition persist_phase (req : SubmitQuizRequest) (score : Z) : M unit :=
  (avail <- db_available ;;
   if avail then
     try_except
       (create_document "submission" (submission_fields req score) ;;
        ret tt)
       (fun _ => ret tt)
   else ret tt)%eff.

(** The quiz document of the live lookup: the database is configured, the
    prober's call does not raise, the request's quiz id is an object id,
    the query does not raise and a document has that id. *)
Definition live_quiz (req : SubmitQuizRequest) (w : World) : option document :=
  s ← db w;
  o ← ObjectId (quiz_id req);
  if raises_at 0 w || raises_at 1 w then None
  else head (filter (λ d, doc_id d = o) (coll s "quiz")).

(** Its correct option, when it records one. *)
Definition live_correct_option (req : SubmitQuizRequest) (w : World)
  : option value :=
  q ← live_quiz req w;
  v ← dict_get "correct_option" (doc_fields q);
  if is_none v then None else Some v.

(** The resolution order of the correct option: the live quiz document,
    then the fallback quiz when the ids agree, then the sentinel. *)
Definition resolved_correct_option (req : SubmitQuizRequest) (w : World)
  : value :=
  match live_correct_option req w with
  | Some v => v
  | None =>
      if String.eqb (quiz_id req) "sample-quiz-1" then VInt 0 else VInt (-1)
  end.

Definition score_for (req : SubmitQuizRequest) (w : World) : Z :=
  if py_eq (VInt (selected_option req)) (resolved_correct_option req w)
  then 1%Z else 0%Z.

(** Round trips made while resolving the correct option. *)
Definition lookup_trips (req : SubmitQuizRequest) (w : World) : nat :=
  match db w with
  | None => 0
  | Some _ =>
      if raises_at 0 w then 1
      else match ObjectId (quiz_id req) with
           | Some _ => 2
           | None => 1
           end
  end.

(** *** Tactics *)

(** Unfolds the monad and the driver, leaving the store's contents and
    the pure helpers folded. *)
Ltac run :=
  cbv [bind ret raise try_except lift_option round_trip deref_db
       db_available list_collection_names count_documents find_one find
       insert_one create_document get_documents hd_error tl
       set_faults set_db db faults environ fst snd
       negb orb andb isinstance_list] in *.

(** The same for the diagnostics handler and its local variable. *)
Ltac run_diag :=
  cbv [test_database test_database_body lift_world assign os_getenv
       set_database set_database_url set_database_name set_connection_status
       set_collections d_backend d_database d_database_url d_database_name
       d_connection_status d_collections
       bind ret raise try_except round_trip deref_db
       db_available list_collection_names hd_error tl
       set_faults set_db db faults environ fst snd
       negb orb andb isinstance_list].

(** Case analysis on the next entry of the failure schedule. *)
Ltac next_fault fs :=
  let e := fresh "e" in
  destruct fs as [|[e|] fs].

(** The same in live mode, where [H] says that no round trip raises. *)
Ltac calm fs H :=
  let e := fresh "e" in
  destruct fs as [|[e|] fs]; [ | discriminate H | ].

(** The store's contents stay folded under [simpl]. *)
Arguments matches : simpl never.
Arguments coll : simpl never.
Arguments insert_doc : simpl never.
Arguments oid_str : simpl never.
Arguments ObjectId : simpl never.
Arguments py_sort : simpl never.
Arguments to_str_id : simpl never.

(** *** Worlds used in examples *)

Definition empty_store : Store := mkStore "lms" ∅ 1.

(** A configured database that never fails. *)
Definition healthy_world : World := mkWorld (Some empty_store) [] ∅.

(** The same after start-up: one course (id 1), two lessons (ids 2, 3),
    one quiz (id 4). *)
Definition seeded_world : World := snd (ensure_seed_data healthy_world).

(** A request that names no stored quiz and selects option -1. *)
Definition sentinel_request : SubmitQuizRequest :=
  mkSubmitQuizRequest "eve@example.org" "0000000000000000000000ff" (-1).

(** *** Enrollment *)

(** The enrollment documents of a learner (by email) in a course. *)
Definition enrollments_of (e c : string) (s : Store) : list document :=
  filter
    (λ d, dict_get "email" (doc_fields d) = Some (VStr e) ∧
          dict_get "course_id" (doc_fields d) = Some (VStr c))
    (coll s "enrollment").

(** At most one enrollment document per (email, course) pair. *)
Definition unique_enrollments (w : World) : Prop :=
  ∀ s, db w = Some s → ∀ e c, length (enrollments_of e c s) ≤ 1.

(** *** Seeding *)

Definition seed_course_fields : dict :=
  [ ("title", VStr "Intro to Cybersecurity");
    ("description",
      VStr "Learn fundamentals: CIA triad, threat landscape, basic defenses.");
    ("level", VStr "Beginner");
    ("category", VStr "Foundations");
    ("thumbnail", VNone) ].

Definition seed_lesson_fields (course_id title content : string) (order : Z)
  : dict :=
  [ ("course_id", VStr course_id);
    ("title", VStr title);
    ("content", VStr content);
    ("order", VInt order) ].

Definition seed_options : list string :=
  [ "Confidentiality, Integrity, Availability";
    "Control, Inspection, Analysis";
    "Confidentiality, Identity, Access";
    "Compliance, Integration, Auditing" ].

Definition seed_quiz_fields (lesson_id : string) : dict :=
  [ ("lesson_id", VStr lesson_id);
    ("question", VStr "What does CIA stand for in cybersecurity?");
    ("options", VList seed_options);
    ("correct_option", VInt 0) ].

(** The store after a complete seeding of [s]: one course, two lessons
    linked to the course's generated id, one quiz linked to the first
    lesson's generated id. *)
Definition seeded (s : Store) : Store :=
  let c := next_oid s in
  let l1 := (c + 1)%N in
  insert_doc "quiz" (seed_quiz_fields (oid_str l1))
    (insert_doc "lesson"
       (seed_lesson_fields (oid_str c) "Threats & Vulnerabilities"
          "Malware, phishing, misconfigurations, weak passwords." 2)
       (insert_doc "lesson"
          (seed_lesson_fields (oid_str c) "CIA Triad"
             "Confidentiality, Integrity, Availability — the pillars of security."
             1)
          (insert_doc "course" seed_course_fields s))).

(** *** Fallback *)

(** Storage is unavailable: the database is not configured (every
    operation on it raises), or the prober's call raises. *)
Definition unavailable (w : World) : Prop :=
  db w = None ∨ raises_at 0 w = true.

(** The read of a handler fails: the database is not configured, or the
    prober's call raises, or the round trip after it raises. *)
Definition read_fails (w : World) : Prop :=
  db w = None ∨ raises_at 0 w = true ∨ raises_at 1 w = true.

(** What [/test] reports when the prober answers [False]. *)
Definition unavailable_report (w : World) : Diagnostics :=
  mkDiagnostics "✅ Running" "⚠️  Unavailable"
    (Some (set_or_not (environ w !! "DATABASE_URL")))
    (Some (set_or_not (environ w !! "DATABASE_NAME")))
    "Not Connected" (VList []).

(** The canned answer of each endpoint. *)
Definition fallback_response (rq : Request) (w : World) : Response :=
  match rq with
  | GetRoot => RMessage "Cybersecurity LMS API running"
  | GetCourses => RItems [SAMPLE_COURSE]
  | GetLessons c =>
      RItems (if String.eqb c "sample-course-1" then SAMPLE_LESSONS else [])
  | GetQuiz l =>
      RQuiz (if String.eqb l "sample-lesson-1" then Some SAMPLE_QUIZ else None)
  | PostEnroll _ => RStatus "enrolled"
  | PostSubmitQuiz r =>
      let correct_option :=
        if String.eqb (quiz_id r) "sample-quiz-1" then 0%Z else (-1)%Z in
      if Z.eqb (selected_option r) correct_option
      then RScore true 1 else RScore false 0
  | GetProgress e c => RProgress e c 0 0
  | GetTest => RDiag (unavailable_report w)
  end.

(** *** Lessons in order *)

(** The lessons stored for a course, in the form the handler sorts. *)
Definition stored_lessons (c : string) (s : Store) : list dict :=
  map to_str_id
      (filter (λ d, dict_get "course_id" (doc_fields d) = Some (VStr c))
              (coll s "lesson")).

(** [x] may come before [y]: [y]'s key is not less than [x]'s. *)
Definition key_le {A} (key : A → value) (x y : A) : Prop :=
  py_lt (key y) (key x) = Some false.

Definition order_le : dict → dict → Prop := key_le order_key.

(** *** Progress *)

Definition submissions_of (e : string) (s : Store) : list document :=
  filter (λ d, dict_get "email" (doc_fields d) = Some (VStr e))
         (coll s "submission").

(** The counts of [/progress]: from the submissions matching the email
    when the read succeeds, zero otherwise. *)
Definition progress_counts (e : string) (w : World) : nat * nat :=
  match db w with
  | Some s =>
      if raises_at 0 w || raises_at 1 w then (0, 0)
      else
        let subs := submissions_of e s in
        (length subs,
         length
           (filter
              (λ d, py_eq (dict_get_default "score" (VInt 0) (doc_fields d))
                          (VInt 1) = true)
              subs))
  | None => (0, 0)
  end.

(** *** Effects on the store *)

(** A computation that leaves the database handle and its contents as
    they are. *)
Definition read_only {A} (m : M A) : Prop :=
  ∀ w, db (snd (m w)) = db w.

(** The stores of two worlds are related by [R]; the handle is configured
    in both or in neither. *)
Definition world_rel (R : Store → Store → Prop) (w w' : World) : Prop :=
  match db w, db w' with
  | Some s, Some s' => R s s'
  | None, None => True
  | _, _ => False
  end.

(** A computation whose effect on the store stays within [R]. *)
Definition evolves (R : Store → Store → Prop) {A} (m : M A) : Prop :=
  ∀ w, world_rel R w (snd (m w)).

(** [s'] holds every document of [s], collection by collection and in the
    same positions, and possibly more after them. *)
Definition appended (s s' : Store) : Prop :=
  ∀ c, coll s c `prefix_of` coll s' c.

(** [s'] agrees with [s] on every collection not named in [cs]. *)
Definition same_outside (cs : list string) (s s' : Store) : Prop :=
  ∀ c, c ∉ cs → coll s' c = coll s c.

(** The collections a request may write. *)
Definition written_by (rq : Request) : list string :=
  match rq with
  | PostEnroll _ => ["enrollment"]
  | PostSubmitQuiz _ => ["submission"]
  | _ => []
  end.

(** The requests served by [GET] routes. *)
Definition is_get (rq : Request) : bool :=
  match rq with
  | PostEnroll _ | PostSubmitQuiz _ => false
  | _ => true
  end.

(** *** Keys *)

(** A key Python orders as a number. *)
Definition numeric (v : value) : Prop := is_Some (py_num v).

(** The quizzes stored for a lesson, in storage order. *)
Definition stored_quizzes (l : string) (s : Store) : list document :=
  filter (λ d, dict_get "lesson_id" (doc_fields d) = Some (VStr l))
         (coll s "quiz").

(** The classes of values Python orders among themselves; [None] is
    ordered with nothing, itself included. *)
Definition key_class (v : value) : option nat :=
  match v with
  | VNone => None
  | VBool _ | VInt _ => Some 0
  | VStr _ => Some 1
  | VOid _ => Some 2
  | VList _ => Some 3
  end.

(** *** Diagnostics *)


(** *** Conformance to the models *)

(** Every document of a collection that has a model conforms to it. *)
Definition conforming (s : Store) : Prop :=
  ∀ c model d,
    model_of c = Some model → d ∈ coll s c →
    conforms model (doc_fields d) = true.

Definition keeps_conforming (s s' : Store) : Prop :=
  conforming s → conforming s'.

(* ===================================================================== *)
(** * Properties                                                          *)
(* ===================================================================== *)

(** ** The prober *)

Lemma db_available_run w :
  db_available w =
    match db w with
    | None => (Ok true, w)
    | Some _ => (Ok (negb (raises_at 0 w)), tick w)
    end.
Proof.
  destruct w as [[s|] fs env]; [|reflexivity].
  next_fault fs; reflexivity.
Qed.

Lemma db_available_total w : ∃ b w', db_available w = (Ok b, w').
Proof. rewrite db_available_run. destruct (db w); eauto. Qed.

Lemma raises_at_0 w :
  raises_at 0 w = true ↔ ∃ e, head (faults w) = Some (Some e).
Proof.
  unfold raises_at. destruct w as [d [|[e|] fs] env]; simpl.
  - split; [discriminate | intros [e He]; discriminate].
  - split; eauto.
  - split; [discriminate | intros [e He]; discriminate].
Qed.

(** C3. The prober answers [False] exactly when its introspection call
    raises; whenever the call completes (whatever list of collection
    names it returns, the empty one included) or is not made at all
    because [db] is [None], the prober answers [True]. It never raises. *)
Theorem db_available_unless_probe_raises (w : World) :
  (fst (db_available w) = Ok false ↔ probe_raises w) ∧
  (¬ probe_raises w → fst (db_available w) = Ok true) ∧
  (db w = None → db_available w = (Ok true, w)) ∧
  (∀ s, db w = Some s → collections s = ∅ → head (faults w) = Some None →
        fst (list_collection_names w) = Ok (VList []) ∧
        fst (db_available w) = Ok true).
Proof.
  assert (Hiff : fst (db_available w) = Ok false ↔ probe_raises w).
  { rewrite db_available_run. unfold probe_raises.
    destruct (db w) as [s|] eqn:Hdb; simpl.
    - destruct (raises_at 0 w) eqn:Hr; simpl.
      + apply raises_at_0 in Hr as [e He]. split; eauto.
      + split; [discriminate|].
        intros (s' & e & _ & He).
        assert (raises_at 0 w = true) by (apply raises_at_0; eauto).
        congruence.
    - split; [discriminate|]. intros (s' & e & Hs & _). discriminate. }
  split; [exact Hiff|]. split; [|split].
  - intros Hn. destruct (db_available_total w) as (b & w' & Hrun).
    rewrite Hrun in *. simpl in *. destruct b; [reflexivity|].
    exfalso. apply Hn, Hiff. reflexivity.
  - intros Hdb. rewrite db_available_run, Hdb. reflexivity.
  - intros s Hdb Hempty Hhead. split.
    + destruct w as [d fs env]. simpl in *. subst d.
      destruct fs as [|[e|] fs]; try discriminate.
      run. rewrite Hempty. reflexivity.
    + rewrite db_available_run, Hdb.
      unfold raises_at. rewrite <- head_lookup, Hhead. reflexivity.
Qed.

(** ** Worlds and round trips *)

Lemma tail_drop {A} (l : list A) : tail l = drop 1 l.
Proof. destruct l; reflexivity. Qed.

Lemma tick_after w : tick w = after 1 w.
Proof. unfold tick, after. rewrite tail_drop. reflexivity. Qed.

Lemma after_0 w : after 0 w = w.
Proof. destruct w; reflexivity. Qed.

Lemma after_after j k w : after j (after k w) = after (k + j) w.
Proof. unfold after, set_faults. simpl. rewrite drop_drop. reflexivity. Qed.

Lemma db_after k w : db (after k w) = db w.
Proof. reflexivity. Qed.

Lemma raises_at_after j k w : raises_at j (after k w) = raises_at (k + j) w.
Proof. unfold raises_at, after. simpl. rewrite lookup_drop. reflexivity. Qed.

Lemma raises_at_set_db s k w : raises_at k (set_db s w) = raises_at k w.
Proof. reflexivity. Qed.

Lemma set_db_after s k w : set_db s (after k w) = after k (set_db s w).
Proof. reflexivity. Qed.

(** ** Monad laws, pointwise *)

Lemma bind_assoc {St A B C} (m : Eff St A) (f : A → Eff St B)
    (g : B → Eff St C) (w : St) :
  bind (bind m f) g w = bind m (λ a, bind (f a) g) w.
Proof. unfold bind. destruct (m w) as [[a|e] w']; reflexivity. Qed.

Lemma bind_ext {St A B} (m : Eff St A) (f g : A → Eff St B) (w : St) :
  (∀ a w', f a w' = g a w') → bind m f w = bind m g w.
Proof.
  intros Hfg. unfold bind. destruct (m w) as [[a|e] w']; [apply Hfg | reflexivity].
Qed.

(** ** Filters *)

Lemma matches_id o d : matches [("_id", VOid o)] d = true ↔ doc_id d = o.
Proof.
  unfold matches. simpl. rewrite andb_true_r, bool_decide_eq_true.
  split; [congruence | intros ->; reflexivity].
Qed.

Lemma filter_by_id o (l : list document) :
  filter (λ d, matches [("_id", VOid o)] d = true) l =
  filter (λ d, doc_id d = o) l.
Proof. apply list_filter_iff. intros d. apply matches_id. Qed.

Lemma correct_option_of_doc q :
  dict_get "correct_option" (doc_dict q) =
  dict_get "correct_option" (doc_fields q).
Proof. reflexivity. Qed.

(** ** Submitting a quiz answer *)

Lemma submit_quiz_phases req w :
  submit_quiz req w =
    (co <- lookup_phase req ;;
     let co :=
       if is_none co then
         if py_eq (VStr (quiz_id req)) (item "id" SAMPLE_QUIZ)
         then item "correct_option" SAMPLE_QUIZ
         else VInt (-1)
       else co in
     let score := if py_eq (VInt (selected_option req)) co
                  then 1%Z else 0%Z in
     persist_phase req score ;;
     ret (RScore (negb (Z.eqb score 0)) score))%eff w.
Proof.
  unfold submit_quiz, lookup_phase, persist_phase, submission_fields.
  rewrite bind_assoc.
  apply bind_ext; intros avail w1. apply bind_ext; intros co w2.
  cbv zeta. rewrite bind_assoc. reflexivity.
Qed.

(** The lookup never raises: it yields the live quiz's correct option, or
    [None], after [lookup_trips] round trips and without touching the
    store. *)
Lemma lookup_phase_run req w :
  lookup_phase req w =
    (Ok (default VNone (live_correct_option req w)),
     after (lookup_trips req w) w).
Proof.
  unfold lookup_phase, live_correct_option, live_quiz, lookup_trips.
  destruct w as [[s|] fs env]; [|reflexivity].
  next_fault fs.
  - (* exhausted schedule *)
    run. unfold raises_at. simpl.
    destruct (ObjectId (quiz_id req)) as [o|]; [|reflexivity]. simpl.
    rewrite filter_by_id.
    destruct (filter _ (coll s "quiz")) as [|q l]; [reflexivity|]. simpl.
    unfold dict_get_default. rewrite correct_option_of_doc.
    destruct (dict_get "correct_option" (doc_fields q)) as [[]|]; reflexivity.
  - (* the probe raises *)
    run. unfold raises_at. simpl.
    destruct (ObjectId (quiz_id req)); reflexivity.
  - run. unfold raises_at. simpl.
    destruct (ObjectId (quiz_id req)) as [o|]; [|reflexivity]. simpl.
    next_fault fs; simpl; try reflexivity.
    all: rewrite filter_by_id.
    all: destruct (filter _ (coll s "quiz")) as [|q l]; [reflexivity|]; simpl.
    all: unfold dict_get_default; rewrite correct_option_of_doc.
    all: destruct (dict_get "correct_option" (doc_fields q)) as [[]|];
      reflexivity.
Qed.

(** Persisting never raises; the record is inserted when the database is
    configured and neither the probe nor the insert raises. *)
Lemma persist_phase_run req score w :
  persist_phase req score w =
    (Ok tt,
     match db w with
     | None => w
     | Some s =>
         if raises_at 0 w then after 1 w
         else if raises_at 1 w then after 2 w
         else set_db (insert_doc "submission" (submission_fields req score) s)
                     (after 2 w)
     end).
Proof.
  unfold persist_phase.
  destruct w as [[s|] fs env]; [|reflexivity].
  next_fault fs; [reflexivity | reflexivity |].
  next_fault fs; reflexivity.
Qed.

Lemma fallback_quiz_id req :
  py_eq (VStr (quiz_id req)) (item "id" SAMPLE_QUIZ) =
  String.eqb (quiz_id req) "sample-quiz-1".
Proof. reflexivity. Qed.

Lemma resolution_agrees req w :
  (let co := default VNone (live_correct_option req w) in
   if is_none co then
     if py_eq (VStr (quiz_id req)) (item "id" SAMPLE_QUIZ)
     then item "correct_option" SAMPLE_QUIZ
     else VInt (-1)
   else co) = resolved_correct_option req w.
Proof.
  unfold resolved_correct_option. rewrite fallback_quiz_id.
  destruct (live_correct_option req w) as [v|] eqn:Hlive; simpl; [|reflexivity].
  unfold live_correct_option in Hlive.
  destruct (live_quiz req w) as [q|]; simpl in Hlive; [|discriminate].
  destruct (dict_get "correct_option" (doc_fields q)) as [v'|];
    simpl in Hlive; [|discriminate].
  destruct (is_none v') eqn:Hn; [discriminate|].
  injection Hlive as <-. rewrite Hn. reflexivity.
Qed.

(** The whole handler in one equation. *)
Lemma submit_quiz_run req w :
  submit_quiz req w =
    (Ok (RScore (negb (Z.eqb (score_for req w) 0)) (score_for req w)),
     snd (persist_phase req (score_for req w)
            (after (lookup_trips req w) w))).
Proof.
  rewrite submit_quiz_phases. unfold bind at 1.
  rewrite lookup_phase_run. cbv zeta. rewrite resolution_agrees.
  fold (score_for req w). unfold bind, ret.
  rewrite persist_phase_run. reflexivity.
Qed.

(** C1. The score of a submission is 1 when the selected option equals
    the resolved correct option and 0 otherwise, and [correct] holds
    exactly when the score is 1; the correct option is that of the live
    quiz document when the lookup yields one, else the fallback quiz's
    (0) when the request names the fallback quiz, else -1. *)
Theorem submit_quiz_scores_against_resolved_option
  (req : SubmitQuizRequest) (w : World) :
  ∃ correct score,
    fst (submit_quiz req w) = Ok (RScore correct score) ∧
    score = (if py_eq (VInt (selected_option req))
                      (resolved_correct_option req w)
             then 1 else 0)%Z ∧
    (correct = true ↔ score = 1%Z) ∧
    resolved_correct_option req w =
      match live_correct_option req w with
      | Some v => v
      | None =>
          if String.eqb (quiz_id req) "sample-quiz-1"
          then item "correct_option" SAMPLE_QUIZ
          else VInt (-1)
      end ∧
    item "correct_option" SAMPLE_QUIZ = VInt 0.
Proof.
  exists (negb (Z.eqb (score_for req w) 0)), (score_for req w).
  rewrite submit_quiz_run. simpl. split; [reflexivity|].
  split; [reflexivity|]. split; [|split; reflexivity].
  unfold score_for. destruct (py_eq _ _); simpl; split; congruence.
Qed.

(** For an unknown quiz the score is 0 for every selected option but -1,
    and 1 for -1: the sentinel is itself an [int] a request may carry. *)
Lemma submit_quiz_unknown_quiz req w :
  live_correct_option req w = None →
  quiz_id req ≠ "sample-quiz-1" →
  resolved_correct_option req w = VInt (-1) ∧
  score_for req w = (if Z.eqb (selected_option req) (-1) then 1 else 0)%Z.
Proof.
  intros Hlive Hid. unfold score_for, resolved_correct_option.
  rewrite Hlive. apply String.eqb_neq in Hid. rewrite Hid.
  split; reflexivity.
Qed.

(** C2, at the failing input. The quiz id is a well-formed object id that
    no stored quiz has and it is not the fallback quiz's id; storage is
    healthy. With [selected_option = -1] the response is
    [{correct: true, score: 1}], and that record is stored. *)
Theorem submit_quiz_sentinel_is_selectable :
  live_quiz sentinel_request seeded_world = None ∧
  quiz_id sentinel_request ≠ "sample-quiz-1" ∧
  resolved_correct_option sentinel_request seeded_world = VInt (-1) ∧
  fst (submit_quiz sentinel_request seeded_world) = Ok (RScore true 1) ∧
  (∃ s, db (snd (submit_quiz sentinel_request seeded_world)) = Some s ∧
        map doc_fields (coll s "submission") =
          [submission_fields sentinel_request 1]).
Proof.
  split; [vm_compute; reflexivity|].
  split; [discriminate|].
  split; [vm_compute; reflexivity|].
  split; [vm_compute; reflexivity|].
  eexists. split; vm_compute; reflexivity.
Qed.

Lemma faults_agree (fs fs' : list (option exn)) :
  take 2 fs = take 2 fs' → fs !! 0 = fs' !! 0 ∧ fs !! 1 = fs' !! 1.
Proof.
  intros H. split.
  - rewrite <- (lookup_take_lt fs 2 0), <- (lookup_take_lt fs' 2 0) by lia.
    rewrite H. reflexivity.
  - rewrite <- (lookup_take_lt fs 2 1), <- (lookup_take_lt fs' 2 1) by lia.
    rewrite H. reflexivity.
Qed.

(** The score depends on the world through the database and the first
    two round trips only. *)
Lemma score_for_agree req w w' :
  db w = db w' → take 2 (faults w) = take 2 (faults w') →
  score_for req w = score_for req w'.
Proof.
  intros Hdb Hfs. apply faults_agree in Hfs as [H0 H1].
  unfold score_for, resolved_correct_option, live_correct_option, live_quiz,
    raises_at.
  rewrite Hdb, H0, H1. reflexivity.
Qed.

Lemma lookup_trips_bounds req w s :
  db w = Some s → (1 ≤ lookup_trips req w ≤ 2)%nat.
Proof.
  intros Hdb. unfold lookup_trips. rewrite Hdb.
  destruct (raises_at 0 w), (ObjectId (quiz_id req)); lia.
Qed.

(** C8. With storage available when the answer is to be persisted (the
    database is configured and the second probe does not raise), the
    record (email, quiz id, selected option, score) is inserted whichever
    way the correct option was resolved; when the insert raises, the
    handler still returns, nothing is stored, and the response is the one
    of the run in which that insert succeeds. *)
Theorem submit_quiz_persists_and_swallows
  (req : SubmitQuizRequest) (w : World) (s : Store) :
  db w = Some s →
  raises_at (lookup_trips req w) w = false →
  let k := lookup_trips req w in
  let score := score_for req w in
  let response := RScore (negb (Z.eqb score 0)) score in
  let stored := insert_doc "submission" (submission_fields req score) s in
  let insert_succeeds := set_faults (<[S k := None]> (faults w)) w in
  (raises_at (S k) w = false →
     submit_quiz req w = (Ok response, set_db stored (after (k + 2) w))) ∧
  (raises_at (S k) w = true →
     submit_quiz req w = (Ok response, after (k + 2) w) ∧
     fst (submit_quiz req insert_succeeds) = Ok response ∧
     db (snd (submit_quiz req insert_succeeds)) = Some stored).
Proof.
  intros Hdb Hprobe k score response stored insert_succeeds.
  fold k in Hprobe.
  assert (Hrun : ∀ b, raises_at (S k) w = b →
            submit_quiz req w =
              (Ok response,
               if b then after (k + 2) w
               else set_db stored (after (k + 2) w))).
  { intros b Hb. rewrite submit_quiz_run, persist_phase_run.
    rewrite db_after, Hdb, !raises_at_after, !after_after.
    rewrite Nat.add_0_r, Nat.add_1_r. fold k. rewrite Hprobe, Hb.
    destruct b; reflexivity. }
  split; [intros Hb; exact (Hrun false Hb)|].
  intros Hb. split; [exact (Hrun true Hb)|].
  destruct (lookup_trips_bounds req w s Hdb) as [Hk1 Hk2]. fold k in Hk1, Hk2.
  assert (Hscore : score_for req insert_succeeds = score).
  { apply score_for_agree; [reflexivity|]. simpl.
    apply take_insert_ge. lia. }
  assert (Hk : lookup_trips req insert_succeeds = k).
  { unfold k, lookup_trips, raises_at, insert_succeeds. simpl.
    rewrite list_lookup_insert_ne by lia. reflexivity. }
  rewrite submit_quiz_run, persist_phase_run, Hscore, Hk.
  rewrite db_after, !raises_at_after, !after_after.
  change (db insert_succeeds) with (db w). rewrite Hdb.
  rewrite Nat.add_0_r, Nat.add_1_r.
  assert (raises_at k insert_succeeds = false) as ->.
  { unfold raises_at, insert_succeeds. simpl.
    rewrite list_lookup_insert_ne by lia. exact Hprobe. }
  assert (raises_at (S k) insert_succeeds = false) as ->.
  { unfold raises_at, insert_succeeds. simpl.
    destruct (decide (S k < length (faults w))) as [Hlt|Hge].
    - rewrite list_lookup_insert_eq by exact Hlt. reflexivity.
    - rewrite list_insert_ge by lia.
      rewrite lookup_ge_None_2 by lia. reflexivity. }
  split; reflexivity.
Qed.

(** A run of [submit_quiz_persists_and_swallows]: the live quiz (id 4) is
    found, the probe before persisting succeeds and the insert raises. *)
Lemma submit_quiz_persists_and_swallows_witness :
  let req := mkSubmitQuizRequest "ann@example.org" (oid_str 4) 0 in
  let w := set_faults [None; None; None; Some "write failed"] seeded_world in
  fst (submit_quiz req w) = Ok (RScore true 1) ∧
  fst (submit_quiz req (set_faults [None; None; None; None] seeded_world))
    = Ok (RScore true 1).
Proof.
  intros req w.
  assert (Hdb : ∃ s, db w = Some s) by (eexists; vm_compute; reflexivity).
  destruct Hdb as [s Hdb].
  destruct (submit_quiz_persists_and_swallows req w s Hdb) as [_ Hraise].
  - vm_compute; reflexivity.
  - destruct Hraise as (Hrun & Hok & _); [vm_compute; reflexivity|].
    split.
    + rewrite Hrun. vm_compute; reflexivity.
    + exact Hok.
Defined.

(** ** Collections under insertion *)

Lemma coll_insert_doc c c' fields s :
  coll (insert_doc c fields s) c' =
    if decide (c = c') then (coll s c ++ [Document (next_oid s) fields])%list
    else coll s c'.
Proof.
  unfold coll at 1, insert_doc. simpl. rewrite lookup_insert.
  destruct (decide (c = c')); reflexivity.
Qed.

Lemma coll_insert_doc_eq c fields s :
  coll (insert_doc c fields s) c =
  (coll s c ++ [Document (next_oid s) fields])%list.
Proof. rewrite coll_insert_doc, decide_True; reflexivity. Qed.

Lemma coll_insert_doc_ne c c' fields s :
  c ≠ c' → coll (insert_doc c fields s) c' = coll s c'.
Proof. intros H. rewrite coll_insert_doc, decide_False; [reflexivity|exact H]. Qed.

Lemma next_oid_insert_doc c fields s :
  next_oid (insert_doc c fields s) = (next_oid s + 1)%N.
Proof. reflexivity. Qed.

(** ** Live mode *)

Lemma live_db n w : live n w = true → ∃ s, db w = Some s.
Proof. unfold live. destruct (db w); [eauto | discriminate]. Qed.

Lemma live_raises_at n k w : live n w = true → k < n → raises_at k w = false.
Proof.
  unfold live, raises_at. destruct (db w); [|discriminate].
  intros Hall Hk.
  destruct (faults w !! k) as [[e|]|] eqn:Hlook; try reflexivity.
  rewrite forallb_forall in Hall.
  specialize (Hall (Some e)). simpl in Hall. symmetry. apply Hall.
  apply list_elem_of_In, list_elem_of_lookup. exists k.
  rewrite lookup_take_lt by exact Hk. exact Hlook.
Qed.

(** ** Enrolling *)

Lemma matches_enrollment e c d :
  matches [("email", VStr e); ("course_id", VStr c)] d = true ↔
  dict_get "email" (doc_fields d) = Some (VStr e) ∧
  dict_get "course_id" (doc_fields d) = Some (VStr c).
Proof.
  unfold matches. cbn [forallb fst snd].
  change (dict_get "email" (doc_dict d)) with (dict_get "email" (doc_fields d)).
  change (dict_get "course_id" (doc_dict d))
    with (dict_get "course_id" (doc_fields d)).
  rewrite andb_true_r, andb_true_iff.
  destruct (dict_get "email" (doc_fields d)) as [v1|],
           (dict_get "course_id" (doc_fields d)) as [v2|];
    rewrite ?bool_decide_eq_true; split; intros [H1 H2];
    try discriminate; split; congruence.
Qed.

Lemma filter_enrollment e c (l : list document) :
  filter (λ d, matches [("email", VStr e); ("course_id", VStr c)] d = true) l =
  filter (λ d, dict_get "email" (doc_fields d) = Some (VStr e) ∧
               dict_get "course_id" (doc_fields d) = Some (VStr c)) l.
Proof. apply list_filter_iff. intros d. apply matches_enrollment. Qed.

(** The handler in one equation: it never raises, and it inserts only
    after a lookup that found no enrollment for the pair. *)
Lemma enroll_run req w :
  enroll req w =
    match db w with
    | None => (Ok (RStatus "enrolled"), w)
    | Some s =>
        if raises_at 0 w then (Ok (RStatus "enrolled"), after 1 w)
        else if raises_at 1 w then (Ok (RStatus "enrolled"), after 2 w)
        else
          match enrollments_of (email req) (course_id req) s with
          | _ :: _ => (Ok (RStatus "already_enrolled"), after 2 w)
          | [] =>
              if raises_at 2 w then (Ok (RStatus "enrolled"), after 3 w)
              else (Ok (RStatus "enrolled"),
                    set_db (insert_doc "enrollment" (enroll_dict req) s)
                           (after 3 w))
          end
    end.
Proof.
  unfold enroll, enrollments_of.
  destruct w as [[s|] fs env]; [|reflexivity].
  next_fault fs.
  - run. unfold raises_at. simpl. rewrite filter_enrollment.
    destruct (filter _ (coll s "enrollment")); reflexivity.
  - reflexivity.
  - next_fault fs.
    + run. unfold raises_at. simpl. rewrite filter_enrollment.
      destruct (filter _ (coll s "enrollment")); reflexivity.
    + reflexivity.
    + run. unfold raises_at. simpl. rewrite filter_enrollment.
      destruct (filter _ (coll s "enrollment")); [|reflexivity].
      next_fault fs; reflexivity.
Qed.

Lemma enrollments_of_insert e c req s :
  enrollments_of e c (insert_doc "enrollment" (enroll_dict req) s) =
  (enrollments_of e c s ++
   if decide (email req = e ∧ course_id req = c)
   then [Document (next_oid s) (enroll_dict req)] else [])%list.
Proof.
  unfold enrollments_of. rewrite coll_insert_doc_eq, filter_app. f_equal.
  destruct (decide (email req = e ∧ course_id req = c)) as [[<- <-]|Hne].
  - rewrite filter_cons_True; [reflexivity|]. split; reflexivity.
  - rewrite filter_cons_False; [reflexivity|].
    intros [He Hc]. simpl in He, Hc. apply Hne. split; congruence.
Qed.

Lemma enroll_preserves_unique req w :
  unique_enrollments w → unique_enrollments (snd (enroll req w)).
Proof.
  intros Hinv. rewrite enroll_run.
  destruct (db w) as [s|] eqn:Hdb; [|exact Hinv].
  assert (Hsame : ∀ k, unique_enrollments (after k w)).
  { intros k s' Hs'. apply Hinv. exact Hs'. }
  destruct (raises_at 0 w); [apply Hsame|].
  destruct (raises_at 1 w); [apply Hsame|].
  destruct (enrollments_of (email req) (course_id req) s) eqn:Hnone;
    [|apply Hsame].
  destruct (raises_at 2 w); [apply Hsame|].
  intros s' Hs' e c. simpl in Hs'. injection Hs' as <-.
  rewrite enrollments_of_insert, length_app.
  destruct (decide (email req = e ∧ course_id req = c)) as [[<- <-]|Hne].
  - rewrite Hnone. simpl. lia.
  - simpl. rewrite Nat.add_0_r. apply (Hinv s Hdb).
Qed.

(** C4. Every enroll operation preserves the invariant "at most one
    enrollment document per (email, course) pair". In live mode the first
    enrollment of a pair inserts one document and answers [enrolled]; a
    second enrollment of the same pair answers [already_enrolled] and
    inserts nothing, as does any enrollment of a pair already stored. *)
Theorem enroll_keeps_enrollments_unique :
  (∀ req w, unique_enrollments w → unique_enrollments (snd (enroll req w))) ∧
  (∀ first second w s,
     db w = Some s → live 5 w = true →
     email second = email first → course_id second = course_id first →
     enrollments_of (email first) (course_id first) s = [] →
     let s1 := insert_doc "enrollment" (enroll_dict first) s in
     enroll first w = (Ok (RStatus "enrolled"), set_db s1 (after 3 w)) ∧
     coll s1 "enrollment" =
       (coll s "enrollment" ++ [Document (next_oid s) (enroll_dict first)])%list ∧
     enroll second (set_db s1 (after 3 w)) =
       (Ok (RStatus "already_enrolled"), set_db s1 (after 5 w)) ∧
     length (enrollments_of (email first) (course_id first) s1) = 1) ∧
  (∀ req w s,
     db w = Some s → live 2 w = true →
     enrollments_of (email req) (course_id req) s ≠ [] →
     enroll req w = (Ok (RStatus "already_enrolled"), after 2 w)).
Proof.
  split; [exact enroll_preserves_unique|]. split.
  - intros first second w s Hdb Hlive He Hc Hnone s1.
    assert (Hcount : enrollments_of (email first) (course_id first) s1 =
                     [Document (next_oid s) (enroll_dict first)]).
    { unfold s1. rewrite enrollments_of_insert, Hnone, decide_True; auto. }
    split; [|split; [|split]].
    + rewrite enroll_run, Hdb, Hnone.
      rewrite !(live_raises_at 5 _ w) by (exact Hlive || lia). reflexivity.
    + apply coll_insert_doc_eq.
    + rewrite enroll_run. cbn [db set_db]. rewrite He, Hc, Hcount.
      rewrite set_db_after, !raises_at_after, !raises_at_set_db.
      rewrite !(live_raises_at 5 _ w) by (exact Hlive || lia).
      rewrite after_after. reflexivity.
    + rewrite Hcount. reflexivity.
  - intros req w s Hdb Hlive Hsome.
    rewrite enroll_run, Hdb.
    rewrite !(live_raises_at 2 _ w) by (exact Hlive || lia).
    destruct (enrollments_of (email req) (course_id req) s);
      [contradiction | reflexivity].
Qed.

(** A run of [enroll_keeps_enrollments_unique] on the seeded database:
    the same learner enrolls twice in the seeded course. *)
Lemma enroll_keeps_enrollments_unique_witness :
  let first := mkEnrollRequest "Ann" "ann@example.org" (oid_str 1) in
  let second := mkEnrollRequest "Ann B." "ann@example.org" (oid_str 1) in
  ∃ w1 w2 s2,
    enroll first seeded_world = (Ok (RStatus "enrolled"), w1) ∧
    enroll second w1 = (Ok (RStatus "already_enrolled"), w2) ∧
    db w2 = Some s2 ∧
    length (enrollments_of "ann@example.org" (oid_str 1) s2) = 1.
Proof.
  intros first second.
  assert (Hdb : ∃ s, db seeded_world = Some s)
    by (eexists; vm_compute; reflexivity).
  destruct Hdb as [s Hdb].
  destruct (proj1 (proj2 enroll_keeps_enrollments_unique)
              first second seeded_world s Hdb)
    as (Hfirst & _ & Hsecond & Hone); try reflexivity.
  { injection Hdb as <-. vm_compute. reflexivity. }
  eexists _, _, _. split; [exact Hfirst|]. split; [exact Hsecond|].
  split; [reflexivity | exact Hone].
Defined.

(** ** Seeding *)

Lemma seed_fields_agree :
  [ ("title", item "title" SAMPLE_COURSE);
    ("description", item "description" SAMPLE_COURSE);
    ("level", item "level" SAMPLE_COURSE);
    ("category", item "category" SAMPLE_COURSE);
    ("thumbnail", item "thumbnail" SAMPLE_COURSE) ] = seed_course_fields ∧
  (∀ c, [ ("course_id", VStr c);
          ("title", item "title" (nth 0 SAMPLE_LESSONS []));
          ("content", item "content" (nth 0 SAMPLE_LESSONS []));
          ("order", VInt 1) ]
        = seed_lesson_fields c "CIA Triad"
            "Confidentiality, Integrity, Availability — the pillars of security."
            1) ∧
  (∀ c, [ ("course_id", VStr c);
          ("title", item "title" (nth 1 SAMPLE_LESSONS []));
          ("content", item "content" (nth 1 SAMPLE_LESSONS []));
          ("order", VInt 2) ]
        = seed_lesson_fields c "Threats & Vulnerabilities"
            "Malware, phishing, misconfigurations, weak passwords." 2) ∧
  (∀ l, [ ("lesson_id", VStr l);
          ("question", item "question" SAMPLE_QUIZ);
          ("options", item "options" SAMPLE_QUIZ);
          ("correct_option", item "correct_option" SAMPLE_QUIZ) ]
        = seed_quiz_fields l).
Proof. repeat split. Qed.

(** A complete seeding: six round trips (probe, count, four inserts). *)
Lemma ensure_seed_data_live w s :
  db w = Some s → live 6 w = true → coll s "course" = [] →
  ensure_seed_data w = (Ok tt, set_db (seeded s) (after 6 w)).
Proof.
  intros Hdb Hlive Hempty.
  destruct seed_fields_agree as (Hc & Hl1 & Hl2 & Hq).
  unfold ensure_seed_data, seeded. rewrite Hc.
  destruct w as [d fs env]. simpl in Hdb. subst d.
  unfold live in Hlive. simpl in Hlive.
  do 6 try (calm fs Hlive).
  all: run; rewrite Hempty; cbn [length Nat.eqb].
  all: rewrite ?coll_insert_doc_eq; reflexivity.
Qed.

(** Seeding never raises. *)
Lemma ensure_seed_data_total w : ∃ w', ensure_seed_data w = (Ok tt, w').
Proof.
  unfold ensure_seed_data, bind at 1.
  destruct (db_available_total w) as (b & w1 & ->).
  destruct b; simpl; [|eauto].
  unfold try_except. destruct (bind _ _ w1) as [[[]|e] w2]; eauto.
Qed.

(** With a course already stored, or without a configured database,
    seeding leaves the store as it is, whatever fails. *)
Lemma ensure_seed_data_idle w :
  (∀ s, db w = Some s → coll s "course" = []  → False) →
  db (snd (ensure_seed_data w)) = db w.
Proof.
  intros Hnonempty. unfold ensure_seed_data.
  destruct w as [[s|] fs env]; [|reflexivity].
  specialize (Hnonempty s eq_refl).
  destruct (coll s "course") as [|d l] eqn:Hcourse; [contradiction|].
  next_fault fs; [ | reflexivity | ].
  - run. rewrite Hcourse. reflexivity.
  - next_fault fs; [ | reflexivity | ].
    + run. rewrite Hcourse. reflexivity.
    + run. rewrite Hcourse. reflexivity.
Qed.

(** C5, as stated, fails: the prober reports storage available and the
    course collection is empty, but the insert of the first lesson
    raises; the failure is swallowed and the store is left with one
    course, no lesson and no quiz. *)
Lemma seeding_interrupted_counterexample :
  let w := mkWorld (Some empty_store)
             [None; None; None; Some "connection reset"] ∅ in
  fst (db_available w) = Ok true ∧
  coll empty_store "course" = [] ∧
  ∃ s', db (snd (ensure_seed_data w)) = Some s' ∧
        length (coll s' "course") = 1 ∧
        coll s' "lesson" = [] ∧
        coll s' "quiz" = [].
Proof.
  intros w. split; [reflexivity|]. split; [reflexivity|].
  eexists. split; [vm_compute; reflexivity|].
  repeat split; vm_compute; reflexivity.
Qed.

(** C5, amended. If the database is configured, none of the six round
    trips of seeding (probe, count, four inserts) raises and the course
    collection is empty, seeding inserts exactly one course, two lessons
    with orders 1 and 2 linked to the generated course id, and one quiz
    linked to the generated id of the order-1 lesson, with the four fixed
    options and correct option 0; nothing else changes. If the course
    collection is not empty, seeding inserts nothing, whatever fails. *)
Theorem seeding_inserts_sample_content_once :
  (∀ w s,
     db w = Some s → live 6 w = true → coll s "course" = [] →
     let c := next_oid s in
     let l1 := (c + 1)%N in
     let l2 := (c + 2)%N in
     let q := (c + 3)%N in
     ∃ s',
       fst (db_available w) = Ok true ∧
       ensure_seed_data w = (Ok tt, set_db s' (after 6 w)) ∧
       coll s' "course" = [Document c seed_course_fields] ∧
       coll s' "lesson" =
         coll s "lesson" ++
         [ Document l1
             (seed_lesson_fields (oid_str c) "CIA Triad"
                "Confidentiality, Integrity, Availability — the pillars of security."
                1);
           Document l2
             (seed_lesson_fields (oid_str c) "Threats & Vulnerabilities"
                "Malware, phishing, misconfigurations, weak passwords." 2) ] ∧
       coll s' "quiz" =
         coll s "quiz" ++ [Document q (seed_quiz_fields (oid_str l1))] ∧
       (∀ other, other ≠ "course" → other ≠ "lesson" → other ≠ "quiz" →
                 coll s' other = coll s other) ∧
       length seed_options = 4 ∧
       dict_get "correct_option" (seed_quiz_fields (oid_str l1))
         = Some (VInt 0)) ∧
  (∀ w s,
     db w = Some s → coll s "course" ≠ [] →
     ∃ w', ensure_seed_data w = (Ok tt, w') ∧ db w' = Some s).
Proof.
  split.
  - intros w s Hdb Hlive Hempty c l1 l2 q.
    exists (seeded s). split; [|split].
    { rewrite db_available_run, Hdb.
      rewrite (live_raises_at 6) by (exact Hlive || lia). reflexivity. }
    { apply ensure_seed_data_live; assumption. }
    unfold seeded.
    repeat split.
    + rewrite !coll_insert_doc_ne, coll_insert_doc_eq by discriminate.
      rewrite Hempty. reflexivity.
    + rewrite coll_insert_doc_ne, !coll_insert_doc_eq by discriminate.
      rewrite coll_insert_doc_ne by discriminate.
      rewrite <- app_assoc, !next_oid_insert_doc. simpl.
      fold c. replace (c + 1 + 1)%N with l2 by (unfold l2; lia).
      reflexivity.
    + rewrite coll_insert_doc_eq, !coll_insert_doc_ne by discriminate.
      rewrite !next_oid_insert_doc. fold c.
      replace (c + 1 + 1 + 1)%N with q by (unfold q; lia).
      reflexivity.
    + intros other H1 H2 H3.
      rewrite !coll_insert_doc_ne by congruence. reflexivity.
  - intros w s Hdb Hnonempty.
    destruct (ensure_seed_data_total w) as [w' Hrun].
    exists w'. split; [exact Hrun|].
    assert (Hidle := ensure_seed_data_idle w).
    rewrite Hrun in Hidle. simpl in Hidle. rewrite Hidle, ?Hdb; [reflexivity|].
    intros s' Hs' Hempty. rewrite Hdb in Hs'. injection Hs' as <-.
    contradiction.
Qed.

(** A run of [seeding_inserts_sample_content_once]: start-up on a healthy,
    empty database. *)
Lemma seeding_inserts_sample_content_once_witness :
  ∃ s', db seeded_world = Some s' ∧
        length (coll s' "course") = 1 ∧
        length (coll s' "lesson") = 2 ∧
        length (coll s' "quiz") = 1.
Proof.
  destruct (proj1 seeding_inserts_sample_content_once
              healthy_world empty_store eq_refl eq_refl eq_refl)
    as (s' & _ & Hrun & Hc & Hl & Hq & _).
  exists s'. unfold seeded_world. rewrite Hrun.
  split; [reflexivity|].
  rewrite Hc, Hl, Hq. repeat split.
Defined.

(** ** Reads *)

Lemma matches_field k v d :
  k ≠ "_id" →
  matches [(k, v)] d = true ↔ dict_get k (doc_fields d) = Some v.
Proof.
  intros Hk. unfold matches. cbn [forallb fst snd doc_dict dict_get].
  apply String.eqb_neq in Hk. rewrite Hk, andb_true_r.
  destruct (dict_get k (doc_fields d)) as [v'|].
  - rewrite bool_decide_eq_true. split; congruence.
  - split; discriminate.
Qed.

Lemma matches_nil d : matches [] d = true.
Proof. reflexivity. Qed.

(** [get_documents] in one equation. *)
Lemma get_documents_run c flt limit w :
  get_documents c flt limit w =
    match db w with
    | None => (Raise db_not_available, w)
    | Some s =>
        match faults w !! 0 with
        | Some (Some e) => (Raise e, after 1 w)
        | _ => (Ok (limit_to limit
                      (filter (λ d, matches flt d = true) (coll s c))),
                after 1 w)
        end
    end.
Proof.
  destruct w as [[s|] fs env]; [|reflexivity].
  next_fault fs; reflexivity.
Qed.

(** A handler that probes, reads once inside a guarded block and falls
    back: its result, by cases. *)
Lemma guarded_read {A} (c : string) (flt : dict) (limit : option nat)
    (k : list document → M (option A)) (fallback : A) w :
  (∀ docs w', ∃ o, k docs w' = (Ok o, w') ∨ ∃ e, k docs w' = (Raise e, w')) →
  fst ((avail <- db_available ;;
        returned <-
          (if avail then
             try_except (docs <- get_documents c flt limit ;; k docs)
                        (fun _ => ret None)
           else ret None) ;;
        match returned with
        | Some r => ret r
        | None => ret fallback
        end)%eff w) =
    Ok (match db w with
        | None => fallback
        | Some s =>
            if raises_at 0 w || raises_at 1 w then fallback
            else
              match fst (k (limit_to limit
                              (filter (λ d, matches flt d = true) (coll s c)))
                           (after 2 w)) with
              | Ok (Some r) => r
              | _ => fallback
              end
        end).
Proof.
  intros Hk. unfold bind at 1. rewrite db_available_run.
  destruct (db w) as [s|] eqn:Hdb.
  - destruct (raises_at 0 w) eqn:H0; simpl; [reflexivity|].
    unfold bind at 1, try_except, bind at 1.
    rewrite tick_after, get_documents_run, db_after, Hdb.
    unfold after at 1. cbn [faults set_faults]. rewrite lookup_drop.
    change (1 + 0) with 1. unfold raises_at.
    destruct (faults w !! 1) as [[e|]|]; simpl; try reflexivity.
    all: rewrite after_after; change (1 + 1) with 2.
    all: destruct (Hk (limit_to limit
                     (filter (λ d, matches flt d = true) (coll s c)))
                   (after 2 w)) as [o [-> | [e ->]]]; simpl;
      try reflexivity.
    all: destruct o; reflexivity.
  - simpl. unfold bind at 1, try_except, bind at 1.
    rewrite get_documents_run, Hdb. reflexivity.
Qed.

Lemma filter_all (l : list document) :
  filter (λ d, matches [] d = true) l = l.
Proof.
  induction l as [|d l IH]; [reflexivity|].
  rewrite filter_cons_True by reflexivity. rewrite IH. reflexivity.
Qed.

Lemma filter_field k v (l : list document) :
  k ≠ "_id" →
  filter (λ d, matches [(k, v)] d = true) l =
  filter (λ d, dict_get k (doc_fields d) = Some v) l.
Proof. intros Hk. apply list_filter_iff. intros d. apply matches_field, Hk. Qed.

Lemma list_courses_run w :
  fst (list_courses w) =
    Ok (match db w with
        | None => RItems [SAMPLE_COURSE]
        | Some s =>
            if raises_at 0 w || raises_at 1 w then RItems [SAMPLE_COURSE]
            else RItems (map to_str_id (coll s "course"))
        end).
Proof.
  unfold list_courses.
  rewrite (guarded_read "course" [] None
             (λ docs, ret (Some (RItems (map to_str_id docs))))).
  - destruct (db w); [|reflexivity].
    destruct (_ || _); [reflexivity|]. simpl. rewrite filter_all. reflexivity.
  - intros docs w'. eexists. left. reflexivity.
Qed.

Lemma list_lessons_run c w :
  fst (list_lessons c w) =
    Ok (match db w with
        | None => fallback_response (GetLessons c) w
        | Some s =>
            if raises_at 0 w || raises_at 1 w
            then fallback_response (GetLessons c) w
            else
              match py_sort order_key (stored_lessons c s) with
              | Some (x :: l) => RItems (x :: l)
              | _ => fallback_response (GetLessons c) w
              end
        end).
Proof.
  unfold list_lessons, fallback_response, stored_lessons.
  change (py_eq (VStr c) (item "id" SAMPLE_COURSE))
    with (String.eqb c "sample-course-1").
  set (k := λ docs : list document,
         (lessons <- lift_option type_error
                       (py_sort order_key (map to_str_id docs)) ;;
          if truthy lessons then ret (Some (RItems lessons)) else ret None)%eff).
  assert (Hk : ∀ docs w', ∃ o, k docs w' = (Ok o, w') ∨
                               ∃ e, k docs w' = (Raise e, w')).
  { intros docs w'. unfold k, bind, lift_option.
    destruct (py_sort order_key (map to_str_id docs)) as [[|x l]|]; simpl.
    - exists None. left. reflexivity.
    - eexists. left. reflexivity.
    - exists None. right. eexists. reflexivity. }
  destruct (String.eqb c "sample-course-1");
    rewrite (guarded_read "lesson" [("course_id", VStr c)] None k _ w Hk).
  all: destruct (db w); [|reflexivity].
  all: destruct (_ || _); [reflexivity|].
  all: simpl; rewrite filter_field by discriminate.
  all: unfold k, bind, lift_option.
  all: destruct (py_sort order_key _) as [[|x l]|]; reflexivity.
Qed.

Lemma get_quiz_run l w :
  fst (get_quiz l w) =
    Ok (match db w with
        | None => fallback_response (GetQuiz l) w
        | Some s =>
            if raises_at 0 w || raises_at 1 w
            then fallback_response (GetQuiz l) w
            else
              match filter (λ d, dict_get "lesson_id" (doc_fields d)
                                 = Some (VStr l)) (coll s "quiz") with
              | q :: _ => RQuiz (Some (to_str_id q))
              | [] => fallback_response (GetQuiz l) w
              end
        end).
Proof.
  unfold get_quiz, fallback_response.
  change (py_eq (VStr l) (item "lesson_id" SAMPLE_QUIZ))
    with (String.eqb l "sample-lesson-1").
  set (k := λ docs : list document,
         match map to_str_id docs with
         | q0 :: _ => ret (Some (RQuiz (Some q0)))
         | [] => ret None
         end : M (option Response)).
  assert (Hk : ∀ docs w', ∃ o, k docs w' = (Ok o, w') ∨
                               ∃ e, k docs w' = (Raise e, w')).
  { intros docs w'. unfold k.
    destruct (map to_str_id docs); eexists; left; reflexivity. }
  destruct (String.eqb l "sample-lesson-1");
    rewrite (guarded_read "quiz" [("lesson_id", VStr l)] (Some 1) k _ w Hk).
  all: destruct (db w); [|reflexivity].
  all: destruct (_ || _); [reflexivity|].
  all: simpl; rewrite filter_field by discriminate.
  all: unfold k.
  all: destruct (filter _ (coll s "quiz")) as [|q qs]; reflexivity.
Qed.

Lemma get_progress_run e c w :
  fst (get_progress e c w) =
    Ok (RProgress e c (fst (progress_counts e w)) (snd (progress_counts e w))).
Proof.
  unfold get_progress, progress_counts, submissions_of.
  rewrite (guarded_read "submission" [("email", VStr e)] None
             (λ subs,
                ret (Some (RProgress e c (length subs)
                             (length
                                (filter
                                   (λ s, py_eq (dict_get_default "score"
                                                  (VInt 0) (doc_dict s))
                                               (VInt 1) = true)
                                   subs)))))).
  - destruct (db w); [|reflexivity].
    destruct (_ || _); [reflexivity|].
    simpl. rewrite filter_field by discriminate. reflexivity.
  - intros docs w'. eexists. left. reflexivity.
Qed.

(** ** Fallback *)

Lemma unavailable_read_fails w : unavailable w → read_fails w.
Proof. intros [H|H]; [left | right; left]; exact H. Qed.

Lemma read_fails_cases w :
  read_fails w →
  match db w with
  | None => True
  | Some _ => raises_at 0 w || raises_at 1 w = true
  end.
Proof.
  intros [H|[H|H]]; destruct (db w); try exact I; try discriminate;
    rewrite H; [reflexivity | apply orb_true_r].
Qed.

Lemma fallback_score req w :
  live_quiz req w = None →
  RScore (negb (Z.eqb (score_for req w) 0)) (score_for req w) =
  fallback_response (PostSubmitQuiz req) w.
Proof.
  intros Hlive. unfold score_for, resolved_correct_option, live_correct_option,
    fallback_response.
  rewrite Hlive. simpl.
  destruct (String.eqb (quiz_id req) "sample-quiz-1"); simpl;
    destruct (Z.eqb (selected_option req) _); reflexivity.
Qed.

Lemma read_fails_no_live_quiz req w : read_fails w → live_quiz req w = None.
Proof.
  intros H. apply read_fails_cases in H. unfold live_quiz.
  destruct (db w); [|reflexivity]. simpl.
  destruct (ObjectId (quiz_id req)); [|reflexivity]. simpl.
  rewrite H. reflexivity.
Qed.

Lemma test_database_run w :
  ∃ r, fst (test_database w) = Ok (RDiag r) ∧
       (∀ s, db w = Some s → raises_at 0 w = true → r = unavailable_report w).
Proof.
  destruct w as [[s|] fs env].
  - next_fault fs.
    + run_diag. eexists. split; [reflexivity|]. intros s' _ H. discriminate H.
    + run_diag. eexists. split; [reflexivity|]. intros s' _ _. reflexivity.
    + next_fault fs; run_diag; eexists; (split; [reflexivity|]);
        intros s' _ H; discriminate H.
  - run_diag. eexists. split; [reflexivity|]. intros s' H. discriminate H.
Qed.

Lemma db_available_false w :
  fst (db_available w) = Ok false →
  ∃ s, db w = Some s ∧ raises_at 0 w = true.
Proof.
  rewrite db_available_run. destruct (db w) as [s|]; [|discriminate].
  simpl. destruct (raises_at 0 w); [eauto | discriminate].
Qed.

(** Every handler returns a body whatever the store does. *)
Lemma dispatch_total rq w : ∃ r, fst (dispatch rq w) = Ok r.
Proof.
  destruct rq; simpl.
  - eexists; reflexivity.
  - rewrite list_courses_run. eauto.
  - rewrite list_lessons_run. eauto.
  - rewrite get_quiz_run. eauto.
  - rewrite enroll_run.
    destruct (db w); [|eauto].
    destruct (raises_at 0 w); [eauto|]. destruct (raises_at 1 w); [eauto|].
    destruct (enrollments_of _ _ _); [|eauto].
    destruct (raises_at 2 w); eauto.
  - rewrite submit_quiz_run. eauto.
  - rewrite get_progress_run. eauto.
  - destruct (test_database_run w) as (r & Hr & _). eauto.
Qed.

(** When the read fails the body is the canned one. *)
Lemma dispatch_read_fails rq w :
  rq ≠ GetTest → read_fails w →
  fst (dispatch rq w) = Ok (fallback_response rq w).
Proof.
  intros Hrq Hfail. pose proof (read_fails_cases w Hfail) as Hcases.
  destruct rq; simpl dispatch.
  - reflexivity.
  - rewrite list_courses_run.
    destruct (db w); [rewrite Hcases|]; reflexivity.
  - rewrite list_lessons_run.
    destruct (db w); [rewrite Hcases|]; reflexivity.
  - rewrite get_quiz_run.
    destruct (db w); [rewrite Hcases|]; reflexivity.
  - rewrite enroll_run.
    destruct (db w); [|reflexivity].
    destruct (raises_at 0 w); [reflexivity|]. simpl in Hcases.
    rewrite Hcases. reflexivity.
  - rewrite submit_quiz_run. cbn [fst]. f_equal.
    apply fallback_score, read_fails_no_live_quiz, Hfail.
  - rewrite get_progress_run. unfold progress_counts.
    destruct (db w); [rewrite Hcases|]; reflexivity.
  - contradiction.
Qed.

(** C6. With storage unavailable, [/courses] returns exactly the fallback
    course; the lessons of [sample-course-1] are the two fallback lessons,
    orders 1 then 2, and those of any other course the empty list; the
    quiz of [sample-lesson-1] is the fallback quiz, whose correct option
    is 0, and that of any other lesson is null. *)
Theorem fallback_content_when_unavailable (w : World) :
  unavailable w →
  fst (list_courses w) = Ok (RItems [SAMPLE_COURSE]) ∧
  fst (list_lessons "sample-course-1" w) = Ok (RItems SAMPLE_LESSONS) ∧
  length SAMPLE_LESSONS = 2 ∧
  map (dict_get "order") SAMPLE_LESSONS = [Some (VInt 1); Some (VInt 2)] ∧
  (∀ c, c ≠ "sample-course-1" → fst (list_lessons c w) = Ok (RItems [])) ∧
  fst (get_quiz "sample-lesson-1" w) = Ok (RQuiz (Some SAMPLE_QUIZ)) ∧
  dict_get "correct_option" SAMPLE_QUIZ = Some (VInt 0) ∧
  (∀ l, l ≠ "sample-lesson-1" → fst (get_quiz l w) = Ok (RQuiz None)).
Proof.
  intros Hdown. apply unavailable_read_fails in Hdown.
  assert (H : ∀ rq, rq ≠ GetTest →
                fst (dispatch rq w) = Ok (fallback_response rq w)).
  { intros rq Hrq. apply dispatch_read_fails; assumption. }
  split; [apply (H GetCourses); discriminate|].
  split; [apply (H (GetLessons "sample-course-1")); discriminate|].
  split; [reflexivity|]. split; [reflexivity|].
  split.
  { intros c Hc. change (list_lessons c w) with (dispatch (GetLessons c) w).
    rewrite (H (GetLessons c)) by discriminate. simpl.
    apply String.eqb_neq in Hc. rewrite Hc. reflexivity. }
  split; [apply (H (GetQuiz "sample-lesson-1")); discriminate|].
  split; [reflexivity|].
  intros l Hl. change (get_quiz l w) with (dispatch (GetQuiz l) w).
  rewrite (H (GetQuiz l)) by discriminate. simpl.
  apply String.eqb_neq in Hl. rewrite Hl. reflexivity.
Qed.

(** A run of [fallback_content_when_unavailable]: the database is
    configured and seeded, and every round trip raises. *)
Lemma fallback_content_when_unavailable_witness :
  let w := set_faults (repeat (Some "connection refused") 8) seeded_world in
  fst (list_courses w) = Ok (RItems [SAMPLE_COURSE]) ∧
  fst (list_lessons (oid_str 1) w) = Ok (RItems []) ∧
  fst (get_quiz (oid_str 2) w) = Ok (RQuiz None).
Proof.
  intros w.
  assert (Hdown : unavailable w) by (right; reflexivity).
  destruct (fallback_content_when_unavailable w Hdown)
    as (Hcourses & _ & _ & _ & Hlessons & _ & _ & Hquiz).
  split; [exact Hcourses|].
  split; [apply Hlessons | apply Hquiz]; discriminate.
Defined.

(** C7. No handler lets a storage failure escape: every request is
    answered with status 200, whatever the database handle and the
    failure schedule. When the prober answers [False] the body is the
    endpoint's fallback; so it is, for every endpoint but the
    diagnostics, when the database is not configured or the round trip
    after the probe raises; and an insert that raises while enrolling is
    answered with the fallback [enrolled]. *)
Theorem storage_failures_never_surface :
  (∀ rq w, http_status (fst (dispatch rq w)) = 200%Z) ∧
  (∀ rq w, fst (db_available w) = Ok false →
           fst (dispatch rq w) = Ok (fallback_response rq w)) ∧
  (∀ rq w, rq ≠ GetTest → read_fails w →
           fst (dispatch rq w) = Ok (fallback_response rq w)) ∧
  (∀ req w s, db w = Some s → live 2 w = true → raises_at 2 w = true →
              enrollments_of (email req) (course_id req) s = [] →
              enroll req w = (Ok (fallback_response (PostEnroll req) w),
                              after 3 w)).
Proof.
  split; [|split; [|split]].
  - intros rq w. destruct (dispatch_total rq w) as [r ->]. reflexivity.
  - intros rq w Hfalse.
    destruct (db_available_false w Hfalse) as (s & Hdb & Hraise).
    assert (Hrest : rq ≠ GetTest →
                    fst (dispatch rq w) = Ok (fallback_response rq w)).
    { intros Hrq. apply dispatch_read_fails; [exact Hrq|].
      right; left. exact Hraise. }
    destruct rq; try (apply Hrest; discriminate).
    simpl. destruct (test_database_run w) as (r & -> & Hr).
    rewrite (Hr s Hdb Hraise). reflexivity.
  - exact dispatch_read_fails.
  - intros req w s Hdb Hlive Hraise Hnone.
    rewrite enroll_run, Hdb, Hnone, Hraise.
    rewrite !(live_raises_at 2 _ w) by (exact Hlive || lia). reflexivity.
Qed.

(** ** Sorting *)

Lemma string_ltb_asym a b : String.ltb a b = true → String.ltb b a = false.
Proof.
  unfold String.ltb. rewrite (String.compare_antisym b a).
  destruct (String.compare a b); simpl; congruence.
Qed.

Lemma list_ltb_asym xs ys : list_ltb xs ys = true → list_ltb ys xs = false.
Proof.
  revert ys. induction xs as [|x xs IH]; intros [|y ys]; simpl; try congruence.
  rewrite (String.eqb_sym y x).
  destruct (String.eqb x y); [apply IH | apply string_ltb_asym].
Qed.

(** [<] is asymmetric wherever it is defined. *)
Lemma py_lt_asym a b : py_lt a b = Some true → py_lt b a = Some false.
Proof.
  destruct a, b; simpl; try discriminate; intros H; injection H as H; f_equal.
  all: try (apply Z.ltb_lt in H; apply Z.ltb_ge; lia).
  - apply string_ltb_asym, H.
  - apply N.ltb_lt in H. apply N.ltb_ge. lia.
  - apply list_ltb_asym, H.
Qed.

Section SortSorted.
Context {A : Type} (key : A → value).

Lemma insert_by_head x l l' :
  insert_by key x l = Some l' →
  ∃ l'', l' = x :: l'' ∨
         (∃ y t, l = y :: t ∧ l' = y :: l'' ∧
                 py_lt (key y) (key x) = Some true).
Proof.
  destruct l as [|y t]; simpl.
  - intros H. injection H as <-. eauto.
  - destruct (py_lt (key y) (key x)) as [[]|] eqn:Hlt; [| |discriminate].
    + destruct (insert_by key x t) as [t'|]; simpl; [|discriminate].
      intros H. injection H as <-. exists t'. right. eauto.
    + intros H. injection H as <-. eauto.
Qed.

Lemma insert_by_sorted x l l' :
  Sorted (key_le key) l → insert_by key x l = Some l' → Sorted (key_le key) l'.
Proof.
  revert l'. induction l as [|y t IH]; intros l' Hsorted; simpl.
  - intros H. injection H as <-. repeat constructor.
  - destruct (py_lt (key y) (key x)) as [[]|] eqn:Hlt; [| |discriminate].
    + destruct (insert_by key x t) as [t'|] eqn:Hins; simpl; [|discriminate].
      intros H. injection H as <-.
      apply Sorted_inv in Hsorted as [Ht Hhd].
      constructor; [apply IH; [exact Ht | reflexivity]|].
      destruct (insert_by_head x t t' Hins) as [t'' [-> | (z & u & -> & -> & _)]].
      * constructor. apply py_lt_asym, Hlt.
      * constructor. apply HdRel_inv in Hhd. exact Hhd.
    + intros H. injection H as <-.
      constructor; [exact Hsorted|]. constructor. exact Hlt.
Qed.

Lemma py_sort_sorted l l' : py_sort key l = Some l' → Sorted (key_le key) l'.
Proof.
  revert l'. induction l as [|x t IH]; intros l'; simpl.
  - unfold py_sort. intros H. injection H as <-. constructor.
  - unfold py_sort; fold (py_sort key t).
    destruct (py_sort key t) as [t'|]; simpl; [|discriminate].
    intros H. eapply insert_by_sorted; [apply IH; reflexivity | exact H].
Qed.
End SortSorted.

Lemma sample_lessons_sorted : Sorted order_le SAMPLE_LESSONS.
Proof. repeat constructor. Qed.

(** On integer keys the order is the usual one. *)
Lemma order_le_int (items : list dict) (zs : list Z) :
  map order_key items = map VInt zs →
  Sorted order_le items → Sorted Z.le zs.
Proof.
  revert zs. induction items as [|x items IH]; intros [|z zs] Hkeys Hsorted;
    try discriminate; [constructor|].
  simpl in Hkeys. injection Hkeys as Hx Hrest.
  apply Sorted_inv in Hsorted as [Hs Hhd].
  constructor; [apply IH; assumption|].
  destruct items as [|y items], zs as [|z' zs]; try discriminate; constructor.
  simpl in Hrest. injection Hrest as Hy _.
  apply HdRel_inv in Hhd. unfold order_le, key_le in Hhd.
  rewrite Hx, Hy in Hhd. simpl in Hhd. injection Hhd as Hhd.
  apply Z.ltb_ge in Hhd. exact Hhd.
Qed.

(** C9. For every course id and every world, the items [/courses/{id}/
    lessons] returns are sorted in ascending order of [x.get("order", 0)]:
    no item's key is less than its predecessor's; when the keys are
    integers this is the order [<=] on them. (On the empty list the
    statement holds trivially.) *)
Theorem list_lessons_sorted_by_order (c : string) (w : World) :
  ∃ items,
    fst (list_lessons c w) = Ok (RItems items) ∧
    Sorted order_le items ∧
    (∀ zs, map order_key items = map VInt zs → Sorted Z.le zs).
Proof.
  assert (H : ∃ items, fst (list_lessons c w) = Ok (RItems items) ∧
                       Sorted order_le items).
  { rewrite list_lessons_run.
    assert (Hfb : ∃ items, Ok (fallback_response (GetLessons c) w)
                           = Ok (RItems items) ∧ Sorted order_le items).
    { simpl. destruct (String.eqb c "sample-course-1"); eexists;
        (split; [reflexivity|]); [apply sample_lessons_sorted | constructor]. }
    destruct (db w) as [s|]; [|exact Hfb].
    destruct (_ || _); [exact Hfb|].
    destruct (py_sort order_key (stored_lessons c s)) as [[|x l]|] eqn:Hsort;
      try exact Hfb.
    eexists. split; [reflexivity|].
    exact (py_sort_sorted order_key _ _ Hsort). }
  destruct H as (items & Hrun & Hsorted).
  exists items. split; [exact Hrun|]. split; [exact Hsorted|].
  intros zs Hkeys. exact (order_le_int items zs Hkeys Hsorted).
Qed.

(** ** Progress *)

(** C10. The counts of [/progress] are those of the submissions matching
    the email: two requests with the same email in the same world return
    the same [quizzes_attempted] and [correct] whatever their course ids,
    each echoing its own course id, and leave the world in the same
    state. *)
Theorem get_progress_ignores_course (e c1 c2 : string) (w : World) :
  let counts := progress_counts e w in
  fst (get_progress e c1 w) = Ok (RProgress e c1 (fst counts) (snd counts)) ∧
  fst (get_progress e c2 w) = Ok (RProgress e c2 (fst counts) (snd counts)) ∧
  snd (get_progress e c1 w) = snd (get_progress e c2 w).
Proof.
  intros counts. split; [apply get_progress_run|].
  split; [apply get_progress_run|].
  unfold get_progress.
  destruct w as [[s|] fs env]; [|reflexivity].
  next_fault fs; [reflexivity | reflexivity |].
  next_fault fs; reflexivity.
Qed.

(** ** Examples *)

(** Lessons stored out of order come back in order. *)
Example list_lessons_reorders :
  let s := insert_doc "lesson" [("course_id", VStr "c"); ("order", VInt 1)]
             (insert_doc "lesson" [("course_id", VStr "c"); ("order", VInt 2)]
                empty_store) in
  fst (list_lessons "c" (mkWorld (Some s) [] ∅)) =
    Ok (RItems
          [ [("course_id", VStr "c"); ("order", VInt 1);
             ("id", VStr (oid_str 2))];
            [("course_id", VStr "c"); ("order", VInt 2);
             ("id", VStr (oid_str 1))] ]).
Proof. vm_compute. reflexivity. Qed.

(** Keys that cannot be compared abort the sort; the handler falls back. *)
Example list_lessons_incomparable_keys :
  let s := insert_doc "lesson" [("course_id", VStr "c"); ("order", VStr "x")]
             (insert_doc "lesson" [("course_id", VStr "c"); ("order", VInt 2)]
                empty_store) in
  fst (list_lessons "c" (mkWorld (Some s) [] ∅)) = Ok (RItems []).
Proof. vm_compute. reflexivity. Qed.

(** The live quiz, the fallback quiz and an unknown quiz. *)
Example submit_quiz_three_ways :
  fst (submit_quiz (mkSubmitQuizRequest "a@b.c" (oid_str 4) 0) seeded_world)
    = Ok (RScore true 1) ∧
  fst (submit_quiz (mkSubmitQuizRequest "a@b.c" "sample-quiz-1" 0) seeded_world)
    = Ok (RScore true 1) ∧
  fst (submit_quiz (mkSubmitQuizRequest "a@b.c" "no-such-quiz" 0) seeded_world)
    = Ok (RScore false 0).
Proof. repeat split; vm_compute; reflexivity. Qed.

(** Progress after two submissions, one of them correct. *)
Example get_progress_counts :
  let w1 := snd (submit_quiz (mkSubmitQuizRequest "a@b.c" (oid_str 4) 0)
                   seeded_world) in
  let w2 := snd (submit_quiz (mkSubmitQuizRequest "a@b.c" (oid_str 4) 3) w1) in
  fst (get_progress "a@b.c" "any-course" w2)
    = Ok (RProgress "a@b.c" "any-course" 2 1).
Proof. vm_compute. reflexivity. Qed.

(** An unconfigured database: the prober answers [True], every read
    falls back, and the diagnostics report the error without raising. *)
Example unconfigured_database :
  let w := mkWorld None [] ∅ in
  fst (db_available w) = Ok true ∧
  fst (list_courses w) = Ok (RItems [SAMPLE_COURSE]) ∧
  http_status (fst (test_database w)) = 200%Z.
Proof. repeat split. Qed.

(* ===================================================================== *)
(** * Further properties of the handlers                                  *)
(* ===================================================================== *)

(** ** [to_str_id] *)

Lemma dict_get_set k k' v d :
  dict_get k' (dict_set k v d) =
    if String.eqb k' k then Some v else dict_get k' d.
Proof.
  induction d as [|[k0 v0] d IH]; simpl.
  - destruct (String.eqb k' k); reflexivity.
  - destruct (String.eqb k k0) eqn:Hk; simpl.
    + apply String.eqb_eq in Hk. subst k0.
      destruct (String.eqb k' k); reflexivity.
    + destruct (String.eqb k' k0) eqn:Hk'.
      * apply String.eqb_eq in Hk'. subst k0.
        rewrite String.eqb_sym, Hk. reflexivity.
      * exact IH.
Qed.

Lemma dict_set_keys k v d :
  map fst (dict_set k v d) =
    if bool_decide (k ∈ map fst d) then map fst d else map fst d ++ [k].
Proof.
  induction d as [|[k0 v0] d IH]; simpl; [reflexivity|].
  destruct (String.eqb k k0) eqn:Hk; simpl.
  - apply String.eqb_eq in Hk. subst k0.
    rewrite bool_decide_eq_true_2 by (left). reflexivity.
  - apply String.eqb_neq in Hk. rewrite IH.
    destruct (bool_decide (k ∈ map fst d)) eqn:Hin.
    + apply bool_decide_eq_true in Hin.
      rewrite bool_decide_eq_true_2 by (right; exact Hin). reflexivity.
    + apply bool_decide_eq_false in Hin.
      rewrite bool_decide_eq_false_2; [reflexivity|].
      intros Hin'. apply elem_of_cons in Hin' as [?|?]; contradiction.
Qed.

(** X1. The public form of a stored document carries the string form of
    its [_id] under ["id"] (replacing an ["id"] field the document may
    have had, in place), reads as the document on every other key, and
    has no ["_id"] entry. *)
Theorem to_str_id_renames_id (doc : document) :
  dict_get "_id" (doc_fields doc) = None →
  dict_get "id" (to_str_id doc) = Some (VStr (oid_str (doc_id doc))) ∧
  dict_get "_id" (to_str_id doc) = None ∧
  (∀ k, k ≠ "id" → dict_get k (to_str_id doc) = dict_get k (doc_fields doc)) ∧
  (∀ k, k ≠ "id" → k ≠ "_id" →
        dict_get k (to_str_id doc) = dict_get k (doc_dict doc)) ∧
  map fst (to_str_id doc) =
    if bool_decide ("id" ∈ map fst (doc_fields doc))
    then map fst (doc_fields doc)
    else map fst (doc_fields doc) ++ ["id"].
Proof.
  intros Hno. unfold to_str_id.
  split; [rewrite dict_get_set; reflexivity|].
  split; [rewrite dict_get_set; exact Hno|].
  split; [|split].
  - intros k Hk. rewrite dict_get_set.
    apply String.eqb_neq in Hk. rewrite Hk. reflexivity.
  - intros k Hk Hk'. rewrite dict_get_set.
    apply String.eqb_neq in Hk. rewrite Hk.
    unfold doc_dict. simpl. apply String.eqb_neq in Hk'. rewrite Hk'.
    reflexivity.
  - apply dict_set_keys.
Qed.

Lemma to_str_id_renames_id_witness :
  to_str_id (Document 10 [("title", VStr "t"); ("id", VInt 7)])
    = [("title", VStr "t"); ("id", VStr "00000000000000000000000a")] ∧
  dict_get "id" (to_str_id (Document 10 [("title", VStr "t"); ("id", VInt 7)]))
    = Some (VStr (oid_str 10)).
Proof.
  split; [vm_compute; reflexivity|].
  apply (to_str_id_renames_id (Document 10 [("title", VStr "t"); ("id", VInt 7)])).
  reflexivity.
Defined.

(** ** What the handlers do to the store *)

Lemma read_only_ret {A} (a : A) : read_only (ret a : M A).
Proof. intros w. reflexivity. Qed.

Lemma read_only_raise {A} e : read_only (raise e : M A).
Proof. intros w. reflexivity. Qed.

Lemma read_only_bind {A B} (m : M A) (k : A → M B) :
  read_only m → (∀ a, read_only (k a)) → read_only (bind m k).
Proof.
  intros Hm Hk w. unfold bind. specialize (Hm w).
  destruct (m w) as [[a|e] w1]; simpl in *; [|exact Hm].
  rewrite Hk. exact Hm.
Qed.

Lemma read_only_try {A} (body : M A) (handler : exn → M A) :
  read_only body → (∀ e, read_only (handler e)) →
  read_only (try_except body handler).
Proof.
  intros Hm Hk w. unfold try_except. specialize (Hm w).
  destruct (body w) as [[a|e] w1]; simpl in *; [exact Hm|].
  rewrite Hk. exact Hm.
Qed.

Lemma read_only_lift_option {A} e (o : option A) :
  read_only (lift_option e o : M A).
Proof. destruct o; [apply read_only_ret | apply read_only_raise]. Qed.

Lemma read_only_round_trip : read_only round_trip.
Proof. intros [d fs env]. next_fault fs; reflexivity. Qed.

Lemma read_only_deref_db e : read_only (deref_db e).
Proof. intros [[s|] fs env]; reflexivity. Qed.

Lemma read_only_db_available : read_only db_available.
Proof. intros [[s|] fs env]; [|reflexivity]. next_fault fs; reflexivity. Qed.

Lemma read_only_find c flt limit : read_only (find c flt limit).
Proof.
  apply read_only_bind; [apply read_only_deref_db|]. intros s.
  apply read_only_bind; [apply read_only_round_trip|]. intros _.
  apply read_only_ret.
Qed.

Lemma read_only_find_one c flt : read_only (find_one c flt).
Proof.
  apply read_only_bind; [apply read_only_deref_db|]. intros s.
  apply read_only_bind; [apply read_only_round_trip|]. intros _.
  apply read_only_ret.
Qed.

Lemma read_only_count_documents c : read_only (count_documents c).
Proof.
  apply read_only_bind; [apply read_only_deref_db|]. intros s.
  apply read_only_bind; [apply read_only_round_trip|]. intros _.
  apply read_only_ret.
Qed.

Lemma read_only_get_documents c flt limit :
  read_only (get_documents c flt limit).
Proof.
  apply read_only_bind; [apply read_only_deref_db|]. intros _.
  apply read_only_find.
Qed.

Lemma read_only_list_collection_names : read_only list_collection_names.
Proof.
  apply read_only_bind; [apply read_only_deref_db|]. intros s.
  apply read_only_bind; [apply read_only_round_trip|]. intros _.
  apply read_only_ret.
Qed.

Create HintDb read_only.

#[local] Hint Resolve read_only_ret read_only_raise read_only_lift_option
  read_only_round_trip read_only_deref_db read_only_db_available
  read_only_find read_only_find_one read_only_count_documents
  read_only_get_documents read_only_list_collection_names : read_only.

(** Splits a handler into its statements. *)
Ltac read_only_steps :=
  repeat first
    [ solve [auto with read_only]
    | apply read_only_bind; [|intros ?]
    | apply read_only_try; [|intros ?]
    | match goal with
      | |- read_only (if ?b then _ else _) => destruct b
      | |- read_only (match ?o with Some _ => _ | None => _ end) => destruct o
      | |- read_only (match ?l with [] => _ | _ :: _ => _ end) => destruct l
      end ].

Lemma read_only_list_courses : read_only list_courses.
Proof. unfold list_courses. read_only_steps. Qed.

Lemma read_only_list_lessons c : read_only (list_lessons c).
Proof. unfold list_lessons. read_only_steps. Qed.

Lemma read_only_get_quiz l : read_only (get_quiz l).
Proof. unfold get_quiz. read_only_steps. Qed.

Lemma read_only_get_progress e c : read_only (get_progress e c).
Proof. unfold get_progress. read_only_steps. Qed.

Lemma read_only_test_database : read_only test_database.
Proof.
  intros w. destruct w as [[s|] fs env]; [|reflexivity].
  next_fault fs; [reflexivity | reflexivity |].
  next_fault fs; reflexivity.
Qed.

Lemma get_routes_are_read_only_aux rq w :
  is_get rq = true → db (snd (dispatch rq w)) = db w.
Proof.
  intros Hget. destruct rq; try discriminate; simpl.
  - reflexivity.
  - apply read_only_list_courses.
  - apply read_only_list_lessons.
  - apply read_only_get_quiz.
  - apply read_only_get_progress.
  - apply read_only_test_database.
Qed.

(** X2. No [GET] route changes the database: after the handler the
    handle is the one it started with, holding the same documents,
    whatever the failures along the way. *)
Theorem get_routes_are_read_only (rq : Request) (w : World) :
  is_get rq = true → db (snd (dispatch rq w)) = db w.
Proof. apply get_routes_are_read_only_aux. Qed.

Lemma get_routes_are_read_only_witness :
  db (snd (dispatch (GetLessons (oid_str 1)) seeded_world)) = db seeded_world.
Proof. apply get_routes_are_read_only. reflexivity. Defined.

(** ** Handlers only append *)

#[local] Instance appended_preorder : PreOrder appended.
Proof.
  split.
  - intros s c. reflexivity.
  - intros s1 s2 s3 H12 H23 c. etransitivity; [apply H12 | apply H23].
Qed.

#[local] Instance same_outside_preorder cs : PreOrder (same_outside cs).
Proof.
  split.
  - intros s c _. reflexivity.
  - intros s1 s2 s3 H12 H23 c Hc. rewrite H23, H12 by exact Hc. reflexivity.
Qed.

Section Evolves.
Context (R : Store → Store → Prop) `{!PreOrder R}.

Lemma world_rel_refl w : world_rel R w w.
Proof. unfold world_rel. destruct (db w); [reflexivity | exact I]. Qed.

Lemma world_rel_trans w1 w2 w3 :
  world_rel R w1 w2 → world_rel R w2 w3 → world_rel R w1 w3.
Proof.
  unfold world_rel. destruct (db w1), (db w2), (db w3); try tauto.
  intros H12 H23. etransitivity; eassumption.
Qed.

Lemma world_rel_same_db w w' : db w' = db w → world_rel R w w'.
Proof.
  intros H. unfold world_rel. rewrite H.
  destruct (db w); [reflexivity | exact I].
Qed.

Lemma evolves_read_only {A} (m : M A) : read_only m → evolves R m.
Proof. intros H w. apply world_rel_same_db, H. Qed.

Lemma evolves_bind {A B} (m : M A) (k : A → M B) :
  evolves R m → (∀ a, evolves R (k a)) → evolves R (bind m k).
Proof.
  intros Hm Hk w. unfold bind. specialize (Hm w).
  destruct (m w) as [[a|e] w1]; simpl in *; [|exact Hm].
  eapply world_rel_trans; [exact Hm | apply Hk].
Qed.

Lemma evolves_try {A} (body : M A) (handler : exn → M A) :
  evolves R body → (∀ e, evolves R (handler e)) →
  evolves R (try_except body handler).
Proof.
  intros Hm Hk w. unfold try_except. specialize (Hm w).
  destruct (body w) as [[a|e] w1]; simpl in *; [exact Hm|].
  eapply world_rel_trans; [exact Hm | apply Hk].
Qed.

Lemma evolves_insert_one c fields :
  (∀ s, R s (insert_doc c fields s)) → evolves R (insert_one c fields).
Proof.
  intros Hins [[s|] fs env]; [|exact I].
  next_fault fs;
    first [apply world_rel_same_db; reflexivity | exact (Hins s)].
Qed.

Lemma evolves_create_document c fields :
  (∀ s, R s (insert_doc c fields s)) → evolves R (create_document c fields).
Proof.
  intros Hins. unfold create_document.
  apply evolves_bind; [apply evolves_read_only, read_only_deref_db|].
  intros _. apply evolves_bind; [apply evolves_insert_one, Hins|].
  intros o. apply evolves_read_only, read_only_ret.
Qed.
End Evolves.

Lemma appended_insert_doc c fields s : appended s (insert_doc c fields s).
Proof.
  intros c'. rewrite coll_insert_doc. destruct (decide (c = c')) as [<-|_].
  - apply prefix_app_r. reflexivity.
  - reflexivity.
Qed.

Lemma same_outside_insert_doc cs c fields s :
  c ∈ cs → same_outside cs s (insert_doc c fields s).
Proof.
  intros Hc c' Hc'. apply coll_insert_doc_ne. intros ->. contradiction.
Qed.

(** Splits a handler into its statements; [tac] settles the inserts. *)
Ltac evolves_steps tac :=
  repeat first
    [ solve [apply evolves_read_only; [exact _ | auto with read_only]]
    | apply evolves_create_document; [exact _ | intros ?; solve [tac]]
    | apply evolves_bind; [exact _ | | intros ?]
    | apply evolves_try; [exact _ | | intros ?]
    | match goal with
      | |- evolves _ (if ?b then _ else _) => destruct b
      | |- evolves _ (match ?o with Some _ => _ | None => _ end) => destruct o
      | |- evolves _ (match ?l with [] => _ | _ :: _ => _ end) => destruct l
      end ].

Lemma evolves_enroll R `{!PreOrder R} req :
  (∀ fields s, R s (insert_doc "enrollment" fields s)) →
  evolves R (enroll req).
Proof. intros Hins. unfold enroll. evolves_steps ltac:(apply Hins). Qed.

Lemma evolves_submit_quiz R `{!PreOrder R} req :
  (∀ fields s, R s (insert_doc "submission" fields s)) →
  evolves R (submit_quiz req).
Proof. intros Hins. unfold submit_quiz. evolves_steps ltac:(apply Hins). Qed.

Lemma evolves_get R `{!PreOrder R} rq :
  is_get rq = true → evolves R (dispatch rq).
Proof.
  intros Hget w. apply world_rel_same_db; [exact _|].
  apply get_routes_are_read_only_aux, Hget.
Qed.

(** X3. No handler removes or rewrites a stored document: after any
    request every collection still begins with the documents it held, in
    the same order, and the collections the request does not write
    ([enrollment] for [/enroll], [submission] for [/submit-quiz], none
    for the [GET] routes) hold exactly what they held. A handle that was
    not configured stays so. *)
Theorem handlers_only_append (rq : Request) (w : World) :
  world_rel appended w (snd (dispatch rq w)) ∧
  world_rel (same_outside (written_by rq)) w (snd (dispatch rq w)).
Proof.
  destruct rq;
    try (split; (apply evolves_get; [exact _ | reflexivity])); simpl; split.
  - apply evolves_enroll; [exact _|]. intros. apply appended_insert_doc.
  - apply evolves_enroll; [exact _|]. intros.
    apply same_outside_insert_doc. left.
  - apply evolves_submit_quiz; [exact _|]. intros. apply appended_insert_doc.
  - apply evolves_submit_quiz; [exact _|]. intros.
    apply same_outside_insert_doc. left.
Qed.

(** ** Start-up *)

Lemma evolves_ensure_seed_data R `{!PreOrder R} :
  (∀ c fields s, c ∈ ["course"; "lesson"; "quiz"] →
                 R s (insert_doc c fields s)) →
  evolves R ensure_seed_data.
Proof.
  intros Hins. unfold ensure_seed_data.
  evolves_steps ltac:(apply Hins; set_solver).
Qed.

(** X4. Start-up cannot fail and only adds content: seeding returns
    normally in every world; it never removes or rewrites a stored
    document, and it writes to no collection other than [course],
    [lesson] and [quiz]. *)
Theorem seeding_is_safe (w : World) :
  fst (startup_event w) = Ok tt ∧
  world_rel appended w (snd (startup_event w)) ∧
  world_rel (same_outside ["course"; "lesson"; "quiz"]) w
            (snd (startup_event w)).
Proof.
  unfold startup_event. split; [|split].
  - destruct (ensure_seed_data_total w) as [w' ->]. reflexivity.
  - apply evolves_ensure_seed_data; [exact _|].
    intros. apply appended_insert_doc.
  - apply evolves_ensure_seed_data; [exact _|].
    intros c fields s Hc. apply same_outside_insert_doc, Hc.
Qed.

(** ** Live reads *)

Lemma live_no_read_failure w :
  live 2 w = true → raises_at 0 w || raises_at 1 w = false.
Proof.
  intros Hlive. rewrite !(live_raises_at 2 _ w) by (exact Hlive || lia).
  reflexivity.
Qed.

(** X5. In live mode [/courses] returns every stored course, in storage
    order and in public form; the sample course is not mixed in, and an
    empty collection gives an empty list rather than the sample course. *)
Theorem list_courses_live (w : World) (s : Store) :
  db w = Some s → live 2 w = true →
  fst (list_courses w) = Ok (RItems (map to_str_id (coll s "course"))) ∧
  (coll s "course" = [] → fst (list_courses w) = Ok (RItems [])).
Proof.
  intros Hdb Hlive.
  assert (Hrun : fst (list_courses w)
                 = Ok (RItems (map to_str_id (coll s "course")))).
  { rewrite list_courses_run, Hdb, live_no_read_failure by exact Hlive.
    reflexivity. }
  split; [exact Hrun|]. intros Hempty. rewrite Hrun, Hempty. reflexivity.
Qed.

Lemma list_courses_live_witness :
  fst (list_courses healthy_world) = Ok (RItems []) ∧
  ∃ course, fst (list_courses seeded_world) = Ok (RItems [course]) ∧
            dict_get "id" course = Some (VStr (oid_str 1)).
Proof.
  split.
  - apply (list_courses_live healthy_world empty_store); reflexivity.
  - eexists. split; vm_compute; reflexivity.
Defined.

(** X6. In live mode [/lessons/{id}/quiz] returns the first quiz stored
    for the lesson, in public form, and ignores any later one; when no
    quiz is stored for the lesson it answers as in fallback mode: the
    sample quiz for [sample-lesson-1], null otherwise. *)
Theorem get_quiz_live (l : string) (w : World) (s : Store) :
  db w = Some s → live 2 w = true →
  fst (get_quiz l w) =
    Ok (match stored_quizzes l s with
        | q :: _ => RQuiz (Some (to_str_id q))
        | [] =>
            RQuiz (if String.eqb l "sample-lesson-1"
                   then Some SAMPLE_QUIZ else None)
        end).
Proof.
  intros Hdb Hlive.
  rewrite get_quiz_run, Hdb, live_no_read_failure by exact Hlive.
  reflexivity.
Qed.

Lemma get_quiz_live_witness :
  fst (get_quiz "sample-lesson-1" healthy_world) = Ok (RQuiz (Some SAMPLE_QUIZ)).
Proof.
  rewrite (get_quiz_live "sample-lesson-1" healthy_world empty_store);
    reflexivity.
Defined.

(** ** Progress *)

(** X7. [/progress] never reports more correct answers than attempts,
    and echoes the email it was asked about. *)
Theorem get_progress_correct_bounded (e c : string) (w : World) :
  ∃ attempted correct,
    fst (get_progress e c w) = Ok (RProgress e c attempted correct) ∧
    correct ≤ attempted.
Proof.
  eexists _, _. split; [apply get_progress_run|].
  unfold progress_counts.
  destruct (db w); [|reflexivity].
  destruct (_ || _); [reflexivity|]. simpl. apply length_filter.
Qed.

Lemma submissions_of_insert e req score s :
  submissions_of e (insert_doc "submission" (submission_fields req score) s) =
  submissions_of e s ++
  if String.eqb (sq_email req) e
  then [Document (next_oid s) (submission_fields req score)] else [].
Proof.
  unfold submissions_of. rewrite coll_insert_doc_eq, filter_app. f_equal.
  destruct (String.eqb (sq_email req) e) eqn:He.
  - apply String.eqb_eq in He. subst e.
    rewrite filter_cons_True; reflexivity.
  - apply String.eqb_neq in He.
    rewrite filter_cons_False; [reflexivity|].
    simpl. intros Heq. congruence.
Qed.

(** X8. In live mode a submission shows up in the learner's progress:
    after [/submit-quiz], [/progress] for the submitting email counts one
    more attempt and, when the answer scored 1, one more correct answer;
    the progress of every other email is as before. *)
Theorem progress_counts_submission
  (req : SubmitQuizRequest) (e c : string) (w : World) :
  live 6 w = true →
  let before := progress_counts e w in
  let mine := if String.eqb (sq_email req) e then 1 else 0 in
  let gained := if Z.eqb (score_for req w) 1 then mine else 0 in
  fst (get_progress e c (snd (submit_quiz req w))) =
    Ok (RProgress e c (fst before + mine) (snd before + gained)).
Proof.
  intros Hlive before mine gained.
  destruct (live_db 6 w Hlive) as [s Hdb].
  destruct (lookup_trips_bounds req w s Hdb) as [Hk1 Hk2].
  assert (Hcalm : ∀ k, k < 6 → raises_at k w = false).
  { intros k Hk. apply (live_raises_at 6); assumption. }
  assert (Hw' : snd (submit_quiz req w) =
                set_db (insert_doc "submission"
                          (submission_fields req (score_for req w)) s)
                       (after (lookup_trips req w + 2) w)).
  { rewrite submit_quiz_run. cbn [snd].
    rewrite persist_phase_run, db_after, Hdb. cbn [snd].
    rewrite !raises_at_after, !Hcalm by lia. rewrite after_after.
    reflexivity. }
  rewrite Hw', get_progress_run.
  unfold progress_counts at 1 2. cbn [db set_db].
  rewrite !raises_at_set_db, !raises_at_after, !Hcalm by lia. cbn [orb].
  unfold before, progress_counts. rewrite Hdb, !Hcalm by lia. cbn [orb fst snd].
  rewrite submissions_of_insert, filter_app, !length_app.
  unfold gained, mine.
  destruct (String.eqb (sq_email req) e).
  - unfold score_for.
    destruct (py_eq (VInt (selected_option req)) _);
      [rewrite filter_cons_True by reflexivity
      |rewrite filter_cons_False by (simpl; discriminate)]; reflexivity.
  - destruct (Z.eqb _ 1); reflexivity.
Qed.

Lemma progress_counts_submission_witness :
  fst (get_progress "ann@example.org" "c"
         (snd (submit_quiz (mkSubmitQuizRequest "ann@example.org" (oid_str 4) 0)
                 seeded_world)))
    = Ok (RProgress "ann@example.org" "c" 1 1).
Proof.
  rewrite (progress_counts_submission
             (mkSubmitQuizRequest "ann@example.org" (oid_str 4) 0));
    reflexivity.
Defined.

(** ** Enrollment answers *)

(** X9. [/enroll] answers [enrolled] or [already_enrolled], and
    [already_enrolled] only in live mode with an enrollment for the pair
    in store, in which case nothing is written. *)
Theorem already_enrolled_is_sound (req : EnrollRequest) (w : World) :
  (fst (enroll req w) = Ok (RStatus "enrolled") ∨
   fst (enroll req w) = Ok (RStatus "already_enrolled")) ∧
  (fst (enroll req w) = Ok (RStatus "already_enrolled") →
   ∃ s, db w = Some s ∧ live 2 w = true ∧
        enrollments_of (email req) (course_id req) s ≠ [] ∧
        db (snd (enroll req w)) = Some s).
Proof.
  rewrite enroll_run.
  assert (Henrolled : ∀ w',
    (fst (Ok (RStatus "enrolled"), w') = Ok (RStatus "enrolled") ∨
     fst (Ok (RStatus "enrolled"), w') = Ok (RStatus "already_enrolled")) ∧
    (fst (Ok (RStatus "enrolled"), w') = Ok (RStatus "already_enrolled") →
     ∃ s, db w = Some s ∧ live 2 w = true ∧
          enrollments_of (email req) (course_id req) s ≠ [] ∧
          db (snd (Ok (RStatus "enrolled"), w')) = Some s)).
  { intros w'. split; [left; reflexivity|]. cbn [fst]. intros H.
    discriminate H. }
  destruct (db w) as [s|] eqn:Hdb; [|apply Henrolled].
  destruct (raises_at 0 w) eqn:H0; [apply Henrolled|].
  destruct (raises_at 1 w) eqn:H1; [apply Henrolled|].
  destruct (enrollments_of (email req) (course_id req) s) as [|d l] eqn:Hnone.
  - destruct (raises_at 2 w); apply Henrolled.
  - split; [right; reflexivity|]. intros _. exists s.
    split; [reflexivity|].
    split; [|split; [rewrite Hnone; discriminate | exact Hdb]].
    unfold live, raises_at in *. rewrite Hdb.
    destruct (faults w) as [|[e0|] [|[e1|] fs]]; simpl in *;
      try reflexivity; discriminate.
Qed.

(** ** The lessons of a course *)

Lemma py_lt_defined a b :
  is_Some (py_lt a b) ↔ ∃ k, key_class a = Some k ∧ key_class b = Some k.
Proof.
  destruct a, b; simpl; split;
    try (intros [? H]; discriminate H);
    try (intros (k & H1 & H2); congruence);
    eauto.
Qed.

Section SortPermutes.
Context {A : Type} (key : A → value).

Lemma insert_by_perm x l l' : insert_by key x l = Some l' → l' ≡ₚ x :: l.
Proof.
  revert l'. induction l as [|y t IH]; intros l'; simpl.
  - intros H. injection H as <-. reflexivity.
  - destruct (py_lt (key y) (key x)) as [[]|]; [| |discriminate].
    + destruct (insert_by key x t) as [t'|]; simpl; [|discriminate].
      intros H. injection H as <-. rewrite (IH t' eq_refl). apply perm_swap.
    + intros H. injection H as <-. reflexivity.
Qed.

Lemma py_sort_perm l l' : py_sort key l = Some l' → l' ≡ₚ l.
Proof.
  revert l'. induction l as [|x t IH]; intros l'.
  - intros H. injection H as <-. reflexivity.
  - unfold py_sort; fold (py_sort key t).
    destruct (py_sort key t) as [t'|]; simpl; [|discriminate].
    intros H. rewrite (insert_by_perm _ _ _ H), (IH t' eq_refl). reflexivity.
Qed.

(** Keys of one class always sort. *)
Lemma insert_by_same_class k x l :
  key_class (key x) = Some k →
  Forall (λ y, key_class (key y) = Some k) l →
  is_Some (insert_by key x l).
Proof.
  intros Hx Hl. induction Hl as [|y t Hy Ht IH]; simpl; [eauto|].
  destruct (py_lt (key y) (key x)) as [[]|] eqn:Hlt.
  - destruct IH as [t' ->]. simpl. eauto.
  - eauto.
  - assert (Hsome : is_Some (py_lt (key y) (key x)))
      by (apply py_lt_defined; eauto).
    rewrite Hlt in Hsome. destruct Hsome as [? ?]. discriminate.
Qed.

Lemma py_sort_same_class k l :
  Forall (λ y, key_class (key y) = Some k) l → is_Some (py_sort key l).
Proof.
  intros Hl. induction Hl as [|x t Hx Ht IH]; [eexists; reflexivity|].
  unfold py_sort; fold (py_sort key t).
  destruct IH as [t' Ht']. rewrite Ht'. simpl.
  apply (insert_by_same_class k); [exact Hx|].
  rewrite (py_sort_perm _ _ Ht'). exact Ht.
Qed.

(** A sort of two or more elements that succeeds had keys of one class. *)
Lemma py_sort_one_class l l' :
  py_sort key l = Some l' → 2 ≤ length l →
  ∃ k, Forall (λ y, key_class (key y) = Some k) l.
Proof.
  revert l'. induction l as [|x t IH]; intros l' Hsort Hlen;
    [simpl in Hlen; lia|].
  unfold py_sort in Hsort; fold (py_sort key t) in Hsort.
  destruct (py_sort key t) as [t'|] eqn:Ht; simpl in Hsort; [|discriminate].
  pose proof (py_sort_perm _ _ Ht) as Hperm.
  destruct t' as [|y u].
  { apply Permutation_length in Hperm. simpl in Hlen, Hperm. lia. }
  simpl in Hsort.
  assert (Hcmp : is_Some (py_lt (key y) (key x))).
  { destruct (py_lt (key y) (key x)); [eauto | discriminate]. }
  apply py_lt_defined in Hcmp as (k & Hy & Hx).
  exists k. constructor; [exact Hx|].
  destruct (decide (2 ≤ length t)) as [Hlong|Hshort].
  - destruct (IH (y :: u) eq_refl Hlong) as (k' & Hall).
    assert (Hy' : key_class (key y) = Some k').
    { rewrite Forall_forall in Hall. apply Hall.
      rewrite <- Hperm. left. }
    assert (k' = k) as -> by congruence. exact Hall.
  - destruct t as [|z [|z' v]]; [constructor | | simpl in Hshort; lia].
    apply Permutation_singleton_r in Hperm. injection Hperm as -> ->.
    constructor; [exact Hy | constructor].
Qed.
End SortPermutes.

Lemma numeric_class v : numeric v ↔ key_class v = Some 0.
Proof.
  unfold numeric. destruct v; simpl; split;
    try (intros [? H]; discriminate H); try discriminate; eauto.
Qed.

(** X10. In live mode, for a course with at least one stored lesson
    whose [order] values are numbers (a missing [order] counts as 0),
    [/courses/{id}/lessons] returns exactly the stored lessons of that
    course, each once, in public form and sorted by [order]; the sample
    lessons are not mixed in. *)
Theorem list_lessons_live (c : string) (w : World) (s : Store) :
  db w = Some s → live 2 w = true →
  stored_lessons c s ≠ [] →
  Forall (λ x, numeric (order_key x)) (stored_lessons c s) →
  ∃ items,
    fst (list_lessons c w) = Ok (RItems items) ∧
    items ≡ₚ stored_lessons c s ∧
    Sorted order_le items.
Proof.
  intros Hdb Hlive Hsome Hnum.
  rewrite list_lessons_run, Hdb, live_no_read_failure by exact Hlive.
  destruct (py_sort_same_class order_key 0 (stored_lessons c s))
    as [items Hsort].
  { eapply Forall_impl; [exact Hnum|]. intros x. apply numeric_class. }
  rewrite Hsort. pose proof (py_sort_perm _ _ _ Hsort) as Hperm.
  destruct items as [|x items].
  - apply Permutation_nil_l in Hperm. congruence.
  - exists (x :: items). split; [reflexivity|]. split; [exact Hperm|].
    exact (py_sort_sorted order_key _ _ Hsort).
Qed.

Lemma list_lessons_live_witness :
  ∃ first second,
    fst (list_lessons (oid_str 1) seeded_world) = Ok (RItems [first; second]) ∧
    order_key first = VInt 1 ∧ order_key second = VInt 2.
Proof.
  assert (Hdb : ∃ s, db seeded_world = Some s)
    by (eexists; vm_compute; reflexivity).
  destruct Hdb as [s Hdb].
  destruct (list_lessons_live (oid_str 1) seeded_world s Hdb eq_refl)
    as (items & Hrun & _ & _).
  - injection Hdb as <-. vm_compute. discriminate.
  - injection Hdb as <-. vm_compute. repeat constructor; eexists; reflexivity.
  - clear Hrun. eexists _, _. split; vm_compute; [reflexivity|].
    split; reflexivity.
Defined.

(** X11. In live mode, when a course has two or more stored lessons and
    two of them carry [order] values Python cannot compare (a number and
    a string, or a null against anything), the sort raises, the failure
    is swallowed and the endpoint answers as in fallback mode: none of
    the stored lessons is returned. *)
Theorem list_lessons_hidden_by_incomparable_orders
  (c : string) (w : World) (s : Store) (x y : dict) :
  db w = Some s → live 2 w = true →
  2 ≤ length (stored_lessons c s) →
  x ∈ stored_lessons c s → y ∈ stored_lessons c s →
  py_lt (order_key x) (order_key y) = None →
  py_sort order_key (stored_lessons c s) = None ∧
  fst (list_lessons c w) =
    Ok (RItems (if String.eqb c "sample-course-1" then SAMPLE_LESSONS else [])).
Proof.
  intros Hdb Hlive Hlen Hx Hy Hcmp.
  assert (Hfail : py_sort order_key (stored_lessons c s) = None).
  { destruct (py_sort order_key (stored_lessons c s)) as [l'|] eqn:Hsort;
      [|reflexivity].
    destruct (py_sort_one_class order_key _ _ Hsort Hlen) as (k & Hall).
    rewrite Forall_forall in Hall.
    assert (Hsome : is_Some (py_lt (order_key x) (order_key y))).
    { apply py_lt_defined. exists k. split; apply Hall; assumption. }
    rewrite Hcmp in Hsome. destruct Hsome as [? ?]. discriminate. }
  split; [exact Hfail|].
  rewrite list_lessons_run, Hdb, live_no_read_failure by exact Hlive.
  rewrite Hfail. reflexivity.
Qed.

Lemma list_lessons_hidden_by_incomparable_orders_witness :
  let s := insert_doc "lesson" [("course_id", VStr "c"); ("order", VNone)]
             (insert_doc "lesson" [("course_id", VStr "c"); ("order", VInt 1)]
                empty_store) in
  fst (list_lessons "c" (mkWorld (Some s) [] ∅)) = Ok (RItems []).
Proof.
  intros s.
  refine (proj2 (list_lessons_hidden_by_incomparable_orders "c"
            (mkWorld (Some s) [] ∅) s
            [("course_id", VStr "c"); ("order", VNone); ("id", VStr (oid_str 2))]
            [("course_id", VStr "c"); ("order", VNone); ("id", VStr (oid_str 2))]
            eq_refl eq_refl _ _ _ eq_refl)).
  - vm_compute. lia.
  - vm_compute. right. left.
  - vm_compute. right. left.
Defined.

(** ** Quiz ids that are not object ids *)



(** ** Diagnostics *)


(** ** Generated ids *)

Lemma hex_val_digit m : (m < 16)%N → hex_val (hex_digit m) = Some m.
Proof.
  intros Hm. destruct m as [|p]; [reflexivity|].
  do 4 (destruct p as [p|p|]; try reflexivity; try lia).
Qed.

Lemma hex_of_length k n acc :
  String.length (hex_of k n acc) = k + String.length acc.
Proof.
  revert n acc. induction k as [|k IH]; intros n acc; simpl; [reflexivity|].
  rewrite IH. simpl. lia.
Qed.

Lemma hex_parse_of k n acc a :
  hex_parse (hex_of k n acc) a =
  hex_parse acc (a * 16 ^ N.of_nat k + n mod 16 ^ N.of_nat k)%N.
Proof.
  revert n acc a. induction k as [|k IH]; intros n acc a.
  - simpl. rewrite N.mod_1_r. f_equal. lia.
  - cbn [hex_of]. rewrite IH. cbn [hex_parse].
    rewrite hex_val_digit by (apply N.mod_lt; lia). f_equal.
    rewrite Nat2N.inj_succ, N.pow_succ_r'.
    rewrite (N.Div0.mod_mul_r n 16 (16 ^ N.of_nat k)). lia.
Qed.

(** The string form of a generated id parses back to the id. *)
Lemma ObjectId_oid_str n : (n < 16 ^ 24)%N → ObjectId (oid_str n) = Some n.
Proof.
  intros Hn. unfold ObjectId, oid_str.
  rewrite hex_of_length. simpl Nat.eqb. cbv iota.
  rewrite hex_parse_of. simpl hex_parse. f_equal.
  change (N.of_nat 24) with 24%N. rewrite N.mod_small by exact Hn. lia.
Qed.

(** ** From start-up to the first answer *)

Lemma seeded_colls s :
  coll (seeded s) "course" =
    coll s "course" ++ [Document (next_oid s) seed_course_fields] ∧
  coll (seeded s) "lesson" =
    coll s "lesson" ++
    [ Document (next_oid s + 1)
        (seed_lesson_fields (oid_str (next_oid s)) "CIA Triad"
           "Confidentiality, Integrity, Availability — the pillars of security."
           1);
      Document (next_oid s + 2)
        (seed_lesson_fields (oid_str (next_oid s)) "Threats & Vulnerabilities"
           "Malware, phishing, misconfigurations, weak passwords." 2) ] ∧
  coll (seeded s) "quiz" =
    coll s "quiz" ++
    [Document (next_oid s + 3) (seed_quiz_fields (oid_str (next_oid s + 1)))].
Proof.
  unfold seeded. split; [|split].
  - rewrite !coll_insert_doc_ne, coll_insert_doc_eq by discriminate.
    reflexivity.
  - rewrite coll_insert_doc_ne, !coll_insert_doc_eq by discriminate.
    rewrite coll_insert_doc_ne by discriminate.
    rewrite <- app_assoc, !next_oid_insert_doc. simpl.
    replace (next_oid s + 1 + 1)%N with (next_oid s + 2)%N by lia.
    reflexivity.
  - rewrite coll_insert_doc_eq, !coll_insert_doc_ne by discriminate.
    rewrite !next_oid_insert_doc.
    replace (next_oid s + 1 + 1 + 1)%N with (next_oid s + 3)%N by lia.
    reflexivity.
Qed.

(** X14. What start-up stores is what the endpoints serve. After a
    complete seeding of a database without courses, lessons or quizzes,
    and while storage stays healthy: [/courses] lists the seeded course;
    its generated id, given to [/courses/{id}/lessons], returns the two
    seeded lessons in order; the first lesson's generated id, given to
    [/lessons/{id}/quiz], returns the seeded quiz; and the quiz's
    generated id, given to [/submit-quiz], scores option 0 with 1 and
    every other option with 0. *)
Theorem seeded_content_is_served (w : World) (s : Store) :
  db w = Some s → live 10 w = true →
  coll s "course" = [] → coll s "lesson" = [] → coll s "quiz" = [] →
  (next_oid s + 3 < 16 ^ 24)%N →
  let w1 := snd (startup_event w) in
  let c := oid_str (next_oid s) in
  let l1 := oid_str (next_oid s + 1) in
  let l2 := oid_str (next_oid s + 2) in
  let q := oid_str (next_oid s + 3) in
  fst (list_courses w1) =
    Ok (RItems [seed_course_fields ++ [("id", VStr c)]]) ∧
  fst (list_lessons c w1) =
    Ok (RItems
          [ seed_lesson_fields c "CIA Triad"
              "Confidentiality, Integrity, Availability — the pillars of security."
              1 ++ [("id", VStr l1)];
            seed_lesson_fields c "Threats & Vulnerabilities"
              "Malware, phishing, misconfigurations, weak passwords." 2
              ++ [("id", VStr l2)] ]) ∧
  fst (get_quiz l1 w1) =
    Ok (RQuiz (Some (seed_quiz_fields l1 ++ [("id", VStr q)]))) ∧
  (∀ e selected,
     fst (submit_quiz (mkSubmitQuizRequest e q selected) w1) =
       Ok (if Z.eqb selected 0 then RScore true 1 else RScore false 0)).
Proof.
  intros Hdb Hlive Hcourse Hlesson Hquiz Hbound w1 c l1 l2 q.
  assert (Hcalm : ∀ k, k < 10 → raises_at k w = false).
  { intros k Hk. apply (live_raises_at 10); assumption. }
  assert (Hw1 : w1 = set_db (seeded s) (after 6 w)).
  { unfold w1, startup_event. rewrite (ensure_seed_data_live w s); auto.
    unfold live in *. rewrite Hdb in *.
    rewrite forallb_forall in *. intros f Hf. apply Hlive.
    apply list_elem_of_In in Hf. apply list_elem_of_In.
    apply list_elem_of_lookup in Hf as [i Hi].
    apply lookup_take_Some in Hi as [Hi Hlt].
    apply list_elem_of_lookup. exists i. rewrite lookup_take_lt by lia.
    exact Hi. }
  assert (Hdb1 : db w1 = Some (seeded s)) by (rewrite Hw1; reflexivity).
  assert (Hcalm1 : ∀ k, k < 4 → raises_at k w1 = false).
  { intros k Hk. rewrite Hw1, raises_at_set_db, raises_at_after.
    apply Hcalm. lia. }
  destruct (seeded_colls s) as (Hc & Hl & Hq).
  rewrite Hcourse in Hc. rewrite Hlesson in Hl. rewrite Hquiz in Hq.
  simpl app in Hc, Hl, Hq.
  split; [|split; [|split]].
  - rewrite list_courses_run, Hdb1, !Hcalm1 by lia. simpl orb. cbv iota.
    rewrite Hc. reflexivity.
  - rewrite list_lessons_run, Hdb1, !Hcalm1 by lia. simpl orb. cbv iota.
    unfold stored_lessons. rewrite Hl.
    rewrite filter_cons_True by reflexivity.
    rewrite filter_cons_True by reflexivity.
    rewrite filter_nil. reflexivity.
  - rewrite get_quiz_run, Hdb1, !Hcalm1 by lia. simpl orb. cbv iota.
    rewrite Hq. rewrite filter_cons_True by reflexivity.
    reflexivity.
  - intros e selected. rewrite submit_quiz_run. cbn [fst].
    assert (Hres : resolved_correct_option
                     (mkSubmitQuizRequest e q selected) w1 = VInt 0).
    { unfold resolved_correct_option, live_correct_option, live_quiz.
      rewrite Hdb1. cbn [quiz_id mbind option_bind].
      unfold q. rewrite ObjectId_oid_str by exact Hbound.
      cbn [mbind option_bind]. rewrite !Hcalm1 by lia. simpl orb. cbv iota.
      rewrite Hq. rewrite filter_cons_True by reflexivity.
      reflexivity. }
    unfold score_for. rewrite Hres. simpl py_eq.
    destruct (Z.eqb selected 0); reflexivity.
Qed.

Lemma seeded_content_is_served_witness :
  fst (get_quiz (oid_str 2) seeded_world) =
    Ok (RQuiz (Some (seed_quiz_fields (oid_str 2) ++ [("id", VStr (oid_str 4))])))
  ∧ fst (submit_quiz (mkSubmitQuizRequest "ann@example.org" (oid_str 4) 0)
           seeded_world) = Ok (RScore true 1).
Proof.
  destruct (seeded_content_is_served healthy_world empty_store)
    as (_ & _ & Hquiz & Hsubmit); try reflexivity.
  split; [exact Hquiz|]. exact (Hsubmit "ann@example.org" 0%Z).
Defined.

(** ** Writes and the models of [schemas.py] *)

#[local] Instance keeps_conforming_preorder : PreOrder keeps_conforming.
Proof.
  split.
  - intros s H. exact H.
  - intros s1 s2 s3 H12 H23 H. apply H23, H12, H.
Qed.

Lemma keeps_conforming_insert c model fields s :
  model_of c = Some model → conforms model fields = true →
  keeps_conforming s (insert_doc c fields s).
Proof.
  intros Hmodel Hok Hs c' model' d Hmodel' Hd.
  rewrite coll_insert_doc in Hd.
  destruct (decide (c = c')) as [<-|Hne].
  - apply elem_of_app in Hd as [Hd|Hd].
    + apply (Hs c model' d Hmodel' Hd).
    + apply list_elem_of_singleton in Hd. subst d. simpl.
      rewrite Hmodel in Hmodel'. injection Hmodel' as <-. exact Hok.
  - apply (Hs c' model' d Hmodel' Hd).
Qed.

Lemma conforms_submission e q selected score :
  (score = 0 ∨ score = 1)%Z →
  conforms Submission
    [ ("email", VStr e); ("quiz_id", VStr q);
      ("selected_option", VInt selected); ("score", VInt score) ]
    = Z.leb 0 selected.
Proof.
  intros [-> | ->]; unfold conforms; simpl;
    rewrite !andb_true_r; reflexivity.
Qed.

Lemma evolves_submit_quiz_conforming req :
  (0 ≤ selected_option req)%Z →
  evolves keeps_conforming (submit_quiz req).
Proof.
  intros Hsel. unfold submit_quiz.
  evolves_steps ltac:(
    apply (keeps_conforming_insert "submission" Submission);
    [ reflexivity
    | rewrite conforms_submission;
      [ apply Z.leb_le, Hsel | destruct (py_eq _ _); auto ] ]).
Qed.

(** X15. What the application writes and what [schemas.py] declares.
    Start-up and [/enroll] keep every collection conforming to its model;
    [/submit-quiz] does so for every request with [selected_option >= 0].
    For a negative [selected_option] it does not: in live mode it stores
    a submission that violates the model's [ge=0] bound on that field
    (the handlers never validate against the models). *)
Theorem writes_and_models :
  (∀ w, world_rel keeps_conforming w (snd (startup_event w))) ∧
  (∀ req w, world_rel keeps_conforming w (snd (enroll req w))) ∧
  (∀ req w, (0 ≤ selected_option req)%Z →
            world_rel keeps_conforming w (snd (submit_quiz req w))) ∧
  (∀ req w, live 4 w = true → (selected_option req < 0)%Z →
            ∃ s' d, db (snd (submit_quiz req w)) = Some s' ∧
                    d ∈ coll s' "submission" ∧
                    conforms Submission (doc_fields d) = false).
Proof.
  split; [|split; [|split]].
  - intros w. unfold startup_event, ensure_seed_data.
    evolves_steps ltac:(
      first
        [ apply (keeps_conforming_insert "course" Course); reflexivity
        | apply (keeps_conforming_insert "lesson" Lesson); reflexivity
        | apply (keeps_conforming_insert "quiz" Quiz); reflexivity ]).
  - intros req w. unfold enroll.
    evolves_steps ltac:(
      apply (keeps_conforming_insert "enrollment" Enrollment); reflexivity).
  - intros req w Hsel. apply evolves_submit_quiz_conforming, Hsel.
  - intros req w Hlive Hneg.
    destruct (live_db 4 w Hlive) as [s Hdb].
    destruct (lookup_trips_bounds req w s Hdb) as [Hk1 Hk2].
    rewrite submit_quiz_run. cbn [snd].
    rewrite persist_phase_run, db_after, Hdb. cbn [snd].
    rewrite !raises_at_after, !(live_raises_at 4 _ w) by (exact Hlive || lia).
    eexists _, _. split; [reflexivity|]. split.
    + rewrite coll_insert_doc_eq. apply elem_of_app. right. left.
    + simpl doc_fields. unfold submission_fields. rewrite conforms_submission.
      * apply Z.leb_gt, Hneg.
      * unfold score_for. destruct (py_eq _ _); auto.
Qed.

Lemma writes_and_models_witness :
  ∃ s' d, db (snd (submit_quiz sentinel_request seeded_world)) = Some s' ∧
          d ∈ coll s' "submission" ∧
          conforms Submission (doc_fields d) = false.
Proof.
  apply (proj2 (proj2 (proj2 writes_and_models))); [reflexivity|].
  simpl. lia.
Defined.

(** ** Transient failures *)

(** X16. A failure of the first probe is not noticed by the second: when
    the prober's call raises while the quiz is looked up and storage
    answers again when the submission is persisted, an answer to a stored
    quiz is scored against the sentinel, whatever the quiz's correct
    option, and that score, 0 for every option a quiz can have, is what
    the store records. *)
Theorem transient_failure_records_zero
  (req : SubmitQuizRequest) (w : World) (s : Store) :
  db w = Some s →
  raises_at 0 w = true → raises_at 1 w = false → raises_at 2 w = false →
  quiz_id req ≠ "sample-quiz-1" → selected_option req ≠ (-1)%Z →
  submit_quiz req w =
    (Ok (RScore false 0),
     set_db (insert_doc "submission" (submission_fields req 0) s)
            (after 3 w)).
Proof.
  intros Hdb H0 H1 H2 Hid Hsel.
  assert (Hlive : live_correct_option req w = None).
  { unfold live_correct_option, live_quiz. rewrite Hdb. simpl.
    destruct (ObjectId (quiz_id req)); [|reflexivity]. simpl.
    rewrite H0. reflexivity. }
  destruct (submit_quiz_unknown_quiz req w Hlive Hid) as [_ Hscore].
  apply Z.eqb_neq in Hsel. rewrite Hsel in Hscore.
  assert (Hk : lookup_trips req w = 1).
  { unfold lookup_trips. rewrite Hdb, H0. reflexivity. }
  rewrite submit_quiz_run, persist_phase_run, Hscore, Hk.
  rewrite db_after, Hdb, !raises_at_after. simpl Nat.add.
  rewrite H1, H2, after_after. reflexivity.
Qed.

Lemma transient_failure_records_zero_witness :
  let req := mkSubmitQuizRequest "ann@example.org" (oid_str 4) 0 in
  let w := set_faults [Some "timeout"; None; None] seeded_world in
  fst (submit_quiz req seeded_world) = Ok (RScore true 1) ∧
  fst (submit_quiz req w) = Ok (RScore false 0) ∧
  ∃ s', db (snd (submit_quiz req w)) = Some s' ∧
        map doc_fields (coll s' "submission") = [submission_fields req 0].
Proof.
  intros req w.
  assert (Hdb : ∃ s, db w = Some s) by (eexists; vm_compute; reflexivity).
  destruct Hdb as [s Hdb].
  split; [vm_compute; reflexivity|].
  rewrite (transient_failure_records_zero req w s Hdb);
    try reflexivity; try discriminate.
  split; [reflexivity|].
  eexists. split; [reflexivity|].
  rewrite coll_insert_doc_eq, map_app.
  injection Hdb as <-. vm_compute. reflexivity.
Defined.

(** X17. [enrolled] does not mean stored: when the probe, the lookup or
    the insert raises, [/enroll] answers [enrolled] and the store holds
    no more than before, so the same learner enrolling again later is
    not recognised. *)
Theorem enroll_acknowledges_without_storing
  (req : EnrollRequest) (w : World) (s : Store) :
  db w = Some s →
  enrollments_of (email req) (course_id req) s = [] →
  raises_at 0 w = true ∨ raises_at 1 w = true ∨ raises_at 2 w = true →
  fst (enroll req w) = Ok (RStatus "enrolled") ∧
  db (snd (enroll req w)) = Some s ∧
  (∀ w', db w' = Some s → live 3 w' = true →
         fst (enroll req w') = Ok (RStatus "enrolled")).
Proof.
  intros Hdb Hnone Hfail. rewrite enroll_run, Hdb, Hnone.
  split; [|split].
  - destruct (raises_at 0 w); [reflexivity|].
    destruct (raises_at 1 w); [reflexivity|].
    destruct (raises_at 2 w); reflexivity.
  - destruct (raises_at 0 w); [exact Hdb|].
    destruct (raises_at 1 w); [exact Hdb|].
    destruct (raises_at 2 w); [exact Hdb|].
    destruct Hfail as [H|[H|H]]; discriminate H.
  - intros w' Hdb' Hlive'. rewrite enroll_run, Hdb', Hnone.
    rewrite !(live_raises_at 3 _ w') by (exact Hlive' || lia). reflexivity.
Qed.

Lemma enroll_acknowledges_without_storing_witness :
  let req := mkEnrollRequest "Ann" "ann@example.org" (oid_str 1) in
  let w := set_faults [None; None; Some "write failed"] seeded_world in
  fst (enroll req w) = Ok (RStatus "enrolled") ∧
  db (snd (enroll req w)) = db seeded_world.
Proof.
  intros req w.
  assert (Hdb : ∃ s, db w = Some s) by (eexists; vm_compute; reflexivity).
  destruct Hdb as [s Hdb].
  destruct (enroll_acknowledges_without_storing req w s Hdb)
    as (Hans & Hstore & _).
  - injection Hdb as <-. vm_compute. reflexivity.
  - right; right. reflexivity.
  - split; [exact Hans|]. rewrite Hstore. symmetry. exact Hdb.
Defined.
